(** * AFEM: extrema reports and part synchronisation

    A shallow embedding of [afem/geometry/distance.py] and
    [afem/structure/join.py], and the properties of the two modules that
    the specification states.

    Python values are modelled as follows.
    - a [float] is an element of a carrier [D] that comes with Python's
      [<] as a boolean test [ltb]; no law of [ltb] is assumed but where a
      theorem states it, and the carrier may hold a NaN, of which every
      [<] is false;
    - an [int] is a [Z];
    - an object reference (a part, a shape, a curve, ...) is a [positive];
    - an exception is a value of [exn], and a call that may raise returns
      a [result]. *)

From Stdlib Require Import ZArith List String Sorting.Sorted Sorting.Permutation Lia.
From stdpp Require Import base option list gmap.

Open Scope Z_scope.

(** ** Exceptions *)

Inductive exn : Type :=
| RuntimeError (msg : string)
| IndexError (msg : string)
| ValueError (msg : string)
| TypeError (msg : string)
| KeyError (key : positive).

Inductive result (A : Type) : Type :=
| Ok (a : A)
| Raise (e : exn).
Arguments Ok {A} a.
Arguments Raise {A} e.

Definition rbind {A B} (m : result A) (k : A -> result B) : result B :=
  match m with
  | Ok a => k a
  | Raise e => Raise e
  end.

Declare Scope result_scope.
Delimit Scope result_scope with res.
Notation "x <- m ;; k" := (rbind m (fun x => k))
  (at level 100, m at next level, right associativity) : result_scope.

(** ** Python built-ins used by the two modules *)

(** [range(a, b)] *)
Definition range (a b : Z) : list Z :=
  map (fun k => a + Z.of_nat k) (seq 0 (Z.to_nat (b - a))).

(** [l[i]] with Python's negative indices. *)
Definition getitem {A} (l : list A) (i : Z) : result A :=
  let n := Z.of_nat (length l) in
  let j := if i <? 0 then i + n else i in
  if (j <? 0) || (n <=? j) then Raise (IndexError "list index out of range")
  else match nth_error l (Z.to_nat j) with
       | Some x => Ok x
       | None => Raise (IndexError "list index out of range")
       end.

(** A [for] loop that appends one row per item and stops at the first
    exception. *)
Fixpoint for_rows {A B} (f : A -> result B) (l : list A) : result (list B) :=
  match l with
  | [] => Ok []
  | x :: l' =>
      (y <- f x ;;
       ys <- for_rows f l' ;;
       Ok (y :: ys))%res
  end.

Example range_1_4 : range 1 4 = [1; 2; 3].
Proof. reflexivity. Qed.

Example range_empty : range 1 1 = [] /\ range 0 (-1) = [].
Proof. split; reflexivity. Qed.

Example getitem_last : getitem [5; 6; 7] (-1) = Ok 7.
Proof. reflexivity. Qed.

Example getitem_nil : getitem (@nil Z) 0 = Raise (IndexError "list index out of range").
Proof. reflexivity. Qed.

(** *** Facts on the built-ins *)

Lemma range_length (a b : Z) : length (range a b) = Z.to_nat (b - a).
Proof. unfold range. now rewrite length_map, length_seq. Qed.

Lemma range_nil (a b : Z) : b <= a -> range a b = [].
Proof.
  intros H. unfold range.
  replace (Z.to_nat (b - a)) with 0%nat by lia. reflexivity.
Qed.

Lemma range_elem (a b i : Z) : In i (range a b) -> a <= i < b.
Proof.
  unfold range. rewrite in_map_iff. intros (k & <- & Hk).
  apply in_seq in Hk. lia.
Qed.

Lemma getitem_0 {A} (l : list A) :
  getitem l 0 = match l with
                | [] => Raise (IndexError "list index out of range")
                | x :: _ => Ok x
                end.
Proof.
  unfold getitem. destruct l as [|x l]; [reflexivity|].
  cbn [length]. rewrite Nat2Z.inj_succ.
  replace (0 <? 0) with false by reflexivity.
  replace (Z.succ (Z.of_nat (length l)) <=? 0) with false
    by (symmetry; apply Z.leb_gt; lia).
  reflexivity.
Qed.

Lemma getitem_neg1 {A} (l : list A) :
  getitem l (-1) = match last l with
                   | None => Raise (IndexError "list index out of range")
                   | Some x => Ok x
                   end.
Proof.
  unfold getitem.
  destruct l as [|x l] using rev_ind; [reflexivity|].
  rewrite last_snoc, length_app. cbn [length].
  replace (-1 <? 0) with true by reflexivity.
  replace (-1 + Z.of_nat (length l + 1)) with (Z.of_nat (length l)) by lia.
  replace (Z.of_nat (length l) <? 0) with false
    by (symmetry; apply Z.ltb_ge; lia).
  replace (Z.of_nat (length l + 1) <=? Z.of_nat (length l)) with false
    by (symmetry; apply Z.leb_gt; lia).
  cbn [orb]. rewrite Nat2Z.id.
  rewrite nth_error_app2 by lia. rewrite Nat.sub_diag. reflexivity.
Qed.

Lemma range_cons (a b : Z) : a < b -> range a b = a :: range (a + 1) b.
Proof.
  intros H. unfold range.
  replace (Z.to_nat (b - a)) with (S (Z.to_nat (b - (a + 1)))) by lia.
  cbn [seq map]. f_equal; [lia|].
  rewrite <- seq_shift, map_map. apply map_ext. intros k. lia.
Qed.

Lemma getitem_middle {A} (pre : list A) (x : A) (post : list A) :
  getitem (pre ++ x :: post) (Z.of_nat (length pre)) = Ok x.
Proof.
  assert (E1 : (Z.of_nat (length pre) <? 0) = false) by (apply Z.ltb_ge; lia).
  assert (E2 : (Z.of_nat (length (pre ++ x :: post)) <=? Z.of_nat (length pre))
               = false).
  { apply Z.leb_gt. rewrite length_app. cbn [length]. lia. }
  unfold getitem. cbv zeta. rewrite E1. cbv iota. rewrite E1, E2.
  cbn [orb]. rewrite Nat2Z.id, nth_error_app2 by lia.
  rewrite Nat.sub_diag. reflexivity.
Qed.

Lemma for_rows_length {A B} (f : A -> result B) (l : list A) (ys : list B) :
  for_rows f l = Ok ys -> length ys = length l.
Proof.
  revert ys. induction l as [|x l IH]; intros ys; cbn.
  - intros [= <-]. reflexivity.
  - destruct (f x) as [y|e]; cbn; [|discriminate].
    destruct (for_rows f l) as [zs|e]; cbn; [|discriminate].
    intros [= <-]. cbn. f_equal. now apply IH.
Qed.

Lemma for_rows_total {A B} (f : A -> result B) (l : list A) :
  (forall x, In x l -> exists y, f x = Ok y) ->
  exists ys, for_rows f l = Ok ys.
Proof.
  induction l as [|x l IH]; intros H; cbn.
  - now exists [].
  - destruct (H x (or_introl eq_refl)) as [y ->]. cbn.
    destruct IH as [ys ->]; [intros z Hz; apply H; now right|].
    cbn. now eexists.
Qed.

(** Python's [<] on integers is asymmetric. *)
Lemma Zltb_asym (x y : Z) : (x <? y) = true -> (y <? x) = false.
Proof. rewrite Z.ltb_lt, Z.ltb_ge. lia. Qed.

(** ** [afem/geometry/distance.py] *)

Module Distance.

Inductive kind : Type :=
| PointCurve | PointSurface | CurveCurve | CurveSurface | SurfaceSurface.

Section Extrema.

(** Python floats and their [<]. *)
Variable D : Type.
Variable ltb : D -> D -> bool.

(** [math.sqrt], which raises [ValueError] outside its domain. *)
Variable sqrt : D -> result D.

(** Points of the kernel ([gp_Pnt]) and of the toolkit, and
    [CheckGeom.to_point]. *)
Variable gp_Pnt : Type.
Variable Pnt : Type.
Variable to_point : gp_Pnt -> Pnt.

(** [x <= y] as Python's sort sees it: not [y < x]. *)
Definition le (x y : D) : Prop := ltb y x = false.

(** [list.sort(key=...)]: a stable sort that compares keys with [<]
    only.  Where [<] orders the keys of the list (see [ordered] below:
    no key is a NaN), the result of a stable sort is unique, and the
    insertion sort below has the values of Python's.  Where it does
    not, the list that [list.sort] returns depends on the steps of its
    algorithm, and the insertion sort has its value on some lists only:
    both leave the keys 3, nan, 1 as they are, but the keys
    2, 1, nan, 1 become 1, 2, nan, 1 here and 1, 1, 2, nan in CPython.
    Whatever the keys, both return a permutation of the list. *)
Fixpoint insert_by {A} (key : A -> D) (x : A) (l : list A) : list A :=
  match l with
  | [] => [x]
  | y :: l' => if ltb (key y) (key x) then y :: insert_by key x l'
               else x :: y :: l'
  end.

Fixpoint sort_by {A} (key : A -> D) (l : list A) : list A :=
  match l with
  | [] => []
  | x :: l' => insert_by key x (sort_by key l')
  end.

(** An extrema solver of the kernel after its construction
    ([Extrema_ExtPC], [Extrema_ExtPS], [Extrema_ExtCC], [Extrema_ExtCS]
    or [Extrema_ExtSS]); [Sol] is what the solver gives for the
    solution of index [i]. [IsParallel] is read for the last three
    only. *)
Record Solver (Sol : Type) : Type := {
  IsDone : bool;
  NbExt : Z;
  IsParallel : bool;
  SquareDistance : Z -> D;
  Solution : Z -> Sol
}.
Arguments IsDone {Sol} _.
Arguments NbExt {Sol} _.
Arguments IsParallel {Sol} _.
Arguments SquareDistance {Sol} _ _.
Arguments Solution {Sol} _ _.

(** [Extrema_POnCurv] and [Extrema_POnSurf]: a point with its
    parameter(s); [Param] is its method [Parameter]. *)
Record POn (U : Type) : Type := { Value : gp_Pnt; Param : U }.
Arguments Value {U} _.
Arguments Param {U} _.

(** The attributes of the five classes. The two columns are [_prms]
    and [_pnts] in the two point classes, [_pnts1] and [_pnts2] in the
    other three; [_parallel] is set by the other three only. *)
Record Report (X Y : Type) : Type := {
  _nsol : Z;
  _parallel : option bool;
  _dmin : D;
  _dmax : D;
  _dist : list D;
  _col1 : list X;
  _col2 : list Y
}.
Arguments _nsol {X Y} _.
Arguments _parallel {X Y} _.
Arguments _dmin {X Y} _.
Arguments _dmax {X Y} _.
Arguments _dist {X Y} _.
Arguments _col1 {X Y} _.
Arguments _col2 {X Y} _.

Definition row0 {X Y} (tup : D * X * Y) : D := fst (fst tup).
Definition row1 {X Y} (tup : D * X * Y) : X := snd (fst tup).
Definition row2 {X Y} (tup : D * X * Y) : Y := snd tup.

Definition DistancePointToCurve (tool : Solver (POn D)) : result (Report D Pnt) :=
  (if negb (IsDone tool) then
     Raise (RuntimeError "Extrema between point and curve failed.")
   else
     let nsol := NbExt tool in
     results <- for_rows (fun i =>
                  di <- sqrt (SquareDistance tool i) ;;
                  let ext_pnt := Solution tool i in
                  let gp_pnt := Value ext_pnt in
                  let ui := Param ext_pnt in
                  let pi := to_point gp_pnt in
                  Ok (di, ui, pi)) (range 1 (nsol + 1)) ;;
     let results := sort_by row0 results in
     first <- getitem results 0 ;;
     final <- getitem results (-1) ;;
     Ok {| _nsol := nsol; _parallel := None;
           _dmin := row0 first; _dmax := row0 final;
           _dist := map row0 results;
           _col1 := map row1 results;
           _col2 := map row2 results |})%res.

Definition DistancePointToSurface (tool : Solver (POn (D * D)))
  : result (Report (D * D) Pnt) :=
  (if negb (IsDone tool) then
     Raise (RuntimeError "Extrema between point and surface failed.")
   else
     let nsol := NbExt tool in
     results <- for_rows (fun i =>
                  di <- sqrt (SquareDistance tool i) ;;
                  let ext_pnt := Solution tool i in
                  let gp_pnt := Value ext_pnt in
                  let '(ui, vi) := Param ext_pnt in
                  let pi := to_point gp_pnt in
                  Ok (di, (ui, vi), pi)) (range 1 (nsol + 1)) ;;
     let results := sort_by row0 results in
     first <- getitem results 0 ;;
     final <- getitem results (-1) ;;
     Ok {| _nsol := nsol; _parallel := None;
           _dmin := row0 first; _dmax := row0 final;
           _dist := map row0 results;
           _col1 := map row1 results;
           _col2 := map row2 results |})%res.

Definition DistanceCurveToCurve (tool : Solver (gp_Pnt * gp_Pnt))
  : result (Report Pnt Pnt) :=
  (if negb (IsDone tool) then
     Raise (RuntimeError "Extrema between two curves failed.")
   else
     let nsol := NbExt tool in
     let parallel := IsParallel tool in
     results <- for_rows (fun i =>
                  di <- sqrt (SquareDistance tool i) ;;
                  let '(gp_pnt1, gp_pnt2) := Solution tool i in
                  let p1 := to_point gp_pnt1 in
                  let p2 := to_point gp_pnt2 in
                  Ok (di, p1, p2)) (range 1 (nsol + 1)) ;;
     let results := sort_by row0 results in
     first <- getitem results 0 ;;
     final <- getitem results (-1) ;;
     Ok {| _nsol := nsol; _parallel := Some parallel;
           _dmin := row0 first; _dmax := row0 final;
           _dist := map row0 results;
           _col1 := map row1 results;
           _col2 := map row2 results |})%res.

Definition DistanceCurveToSurface (tool : Solver (gp_Pnt * gp_Pnt))
  : result (Report Pnt Pnt) :=
  (if negb (IsDone tool) then
     Raise (RuntimeError "Extrema between curve and surface failed.")
   else
     let nsol := NbExt tool in
     let parallel := IsParallel tool in
     results <- for_rows (fun i =>
                  di <- sqrt (SquareDistance tool i) ;;
                  let '(gp_pnt1, gp_pnt2) := Solution tool i in
                  let p1 := to_point gp_pnt1 in
                  let p2 := to_point gp_pnt2 in
                  Ok (di, p1, p2)) (range 1 (nsol + 1)) ;;
     let results := sort_by row0 results in
     first <- getitem results 0 ;;
     final <- getitem results (-1) ;;
     Ok {| _nsol := nsol; _parallel := Some parallel;
           _dmin := row0 first; _dmax := row0 final;
           _dist := map row0 results;
           _col1 := map row1 results;
           _col2 := map row2 results |})%res.

Definition DistanceSurfaceToSurface (tool : Solver (gp_Pnt * gp_Pnt))
  : result (Report Pnt Pnt) :=
  (if negb (IsDone tool) then
     Raise (RuntimeError "Extrema between curve and surface failed.")
   else
     let nsol := NbExt tool in
     let parallel := IsParallel tool in
     results <- for_rows (fun i =>
                  di <- sqrt (SquareDistance tool i) ;;
                  let '(gp_pnt1, gp_pnt2) := Solution tool i in
                  let p1 := to_point gp_pnt1 in
                  let p2 := to_point gp_pnt2 in
                  Ok (di, p1, p2)) (range 1 (nsol + 1)) ;;
     let results := sort_by row0 results in
     first <- getitem results 0 ;;
     final <- getitem results (-1) ;;
     Ok {| _nsol := nsol; _parallel := Some parallel;
           _dmin := row0 first; _dmax := row0 final;
           _dist := map row0 results;
           _col1 := map row1 results;
           _col2 := map row2 results |})%res.

(** *** One call of any of the five classes *)

Inductive call : Type :=
| CallPointToCurve (tool : Solver (POn D))
| CallPointToSurface (tool : Solver (POn (D * D)))
| CallCurveToCurve (tool : Solver (gp_Pnt * gp_Pnt))
| CallCurveToSurface (tool : Solver (gp_Pnt * gp_Pnt))
| CallSurfaceToSurface (tool : Solver (gp_Pnt * gp_Pnt)).

Definition kind_of (c : call) : kind :=
  match c with
  | CallPointToCurve _ => PointCurve
  | CallPointToSurface _ => PointSurface
  | CallCurveToCurve _ => CurveCurve
  | CallCurveToSurface _ => CurveSurface
  | CallSurfaceToSurface _ => SurfaceSurface
  end.

Definition done (c : call) : bool :=
  match c with
  | CallPointToCurve t => IsDone t
  | CallPointToSurface t => IsDone t
  | CallCurveToCurve t | CallCurveToSurface t | CallSurfaceToSurface t => IsDone t
  end.

Definition nb_ext (c : call) : Z :=
  match c with
  | CallPointToCurve t => NbExt t
  | CallPointToSurface t => NbExt t
  | CallCurveToCurve t | CallCurveToSurface t | CallSurfaceToSurface t => NbExt t
  end.

Definition square_distance (c : call) (i : Z) : D :=
  match c with
  | CallPointToCurve t => SquareDistance t i
  | CallPointToSurface t => SquareDistance t i
  | CallCurveToCurve t | CallCurveToSurface t | CallSurfaceToSurface t =>
      SquareDistance t i
  end.

(** What the caller reads of a report whatever its class: the
    properties [dmin], [dmax] and [distances]. *)
Record summary : Type := { dmin : D; dmax : D; distances : list D }.

Definition summarize {X Y} (r : Report X Y) : summary :=
  {| dmin := _dmin r; dmax := _dmax r; distances := _dist r |}.

Definition run (c : call) : result summary :=
  match c with
  | CallPointToCurve t => (r <- DistancePointToCurve t ;; Ok (summarize r))%res
  | CallPointToSurface t => (r <- DistancePointToSurface t ;; Ok (summarize r))%res
  | CallCurveToCurve t => (r <- DistanceCurveToCurve t ;; Ok (summarize r))%res
  | CallCurveToSurface t => (r <- DistanceCurveToSurface t ;; Ok (summarize r))%res
  | CallSurfaceToSurface t => (r <- DistanceSurfaceToSurface t ;; Ok (summarize r))%res
  end.


(** The error each class raises when its solver is not done. *)
Definition not_done_error (k : kind) : exn :=
  match k with
  | PointCurve => RuntimeError "Extrema between point and curve failed."
  | PointSurface => RuntimeError "Extrema between point and surface failed."
  | CurveCurve => RuntimeError "Extrema between two curves failed."
  | CurveSurface => RuntimeError "Extrema between curve and surface failed."
  | SurfaceSurface => RuntimeError "Extrema between curve and surface failed."
  end.

(** The same call with a solver that reports not done. *)
Definition set_not_done {Sol} (t : Solver Sol) : Solver Sol :=
  {| IsDone := false; NbExt := NbExt t; IsParallel := IsParallel t;
     SquareDistance := SquareDistance t; Solution := Solution t |}.

Definition not_done_call (c : call) : call :=
  match c with
  | CallPointToCurve t => CallPointToCurve (set_not_done t)
  | CallPointToSurface t => CallPointToSurface (set_not_done t)
  | CallCurveToCurve t => CallCurveToCurve (set_not_done t)
  | CallCurveToSurface t => CallCurveToSurface (set_not_done t)
  | CallSurfaceToSurface t => CallSurfaceToSurface (set_not_done t)
  end.

(** *** Facts on the sort *)

Lemma insert_by_perm {A} (key : A -> D) (x : A) (l : list A) :
  Permutation (insert_by key x l) (x :: l).
Proof.
  induction l as [|y l IH]; cbn; [reflexivity|].
  destruct (ltb (key y) (key x)); [|reflexivity].
  rewrite IH. apply perm_swap.
Qed.

Lemma sort_by_perm {A} (key : A -> D) (l : list A) :
  Permutation (sort_by key l) l.
Proof.
  induction l as [|x l IH]; cbn; [reflexivity|].
  rewrite insert_by_perm. now constructor.
Qed.

Lemma sort_by_length {A} (key : A -> D) (l : list A) :
  length (sort_by key l) = length l.
Proof. apply Permutation_length, sort_by_perm. Qed.

Lemma sort_by_nil_inv {A} (key : A -> D) (l : list A) :
  sort_by key l = [] -> l = [].
Proof.
  intros H. apply (f_equal (@length A)) in H.
  rewrite sort_by_length in H. now destruct l.
Qed.

Section Order.

(** Python's [<] on floats that are not NaN. *)
Hypothesis ltb_asym : forall x y, ltb x y = true -> ltb y x = false.
Hypothesis le_trans : forall x y z, le x y -> le y z -> le x z.

Lemma insert_by_sorted {A} (key : A -> D) (x : A) (l : list A) :
  StronglySorted (fun a b => le (key a) (key b)) l ->
  StronglySorted (fun a b => le (key a) (key b)) (insert_by key x l).
Proof.
  induction 1 as [|y l Hs IH Hy]; cbn.
  - constructor; constructor.
  - destruct (ltb (key y) (key x)) eqn:E.
    + constructor; [exact IH|].
      eapply Permutation_Forall; [symmetry; apply insert_by_perm|].
      constructor; [|exact Hy]. unfold le. now apply ltb_asym.
    + constructor; [now constructor|].
      constructor; [exact E|].
      eapply Forall_impl; [exact Hy|].
      intros z Hz. cbn in Hz. eapply le_trans; [exact E|exact Hz].
Qed.

Lemma sort_by_sorted {A} (key : A -> D) (l : list A) :
  StronglySorted (fun a b => le (key a) (key b)) (sort_by key l).
Proof.
  induction l as [|x l IH]; cbn; [constructor|].
  now apply insert_by_sorted.
Qed.

Lemma map_sorted {A} (key : A -> D) (l : list A) :
  StronglySorted (fun a b => le (key a) (key b)) l ->
  StronglySorted le (map key l).
Proof.
  induction 1 as [|y l Hs IH Hy]; cbn; constructor; [exact IH|].
  apply List.Forall_map. exact Hy.
Qed.

End Order.

(** [<] orders the elements of [l]: on them it is asymmetric and [le]
    is transitive.  This is so of every list of floats without a NaN;
    a NaN, of which every [<] is false, breaks the transitivity. *)
Definition ordered (l : list D) : Prop :=
  (forall x y, In x l -> In y l -> ltb x y = true -> ltb y x = false) /\
  (forall x y z, In x l -> In y l -> In z l -> le x y -> le y z -> le x z).





(** *** The five constructors *)

(** What every constructor does with its rows once the loop is over. *)
Definition finish {X Y} (nsol : Z) (parallel : option bool)
  (results : list (D * X * Y)) : result (Report X Y) :=
  (let results := sort_by row0 results in
   first <- getitem results 0 ;;
   final <- getitem results (-1) ;;
   Ok {| _nsol := nsol; _parallel := parallel;
         _dmin := row0 first; _dmax := row0 final;
         _dist := map row0 results;
         _col1 := map row1 results;
         _col2 := map row2 results |})%res.

Lemma finish_nil {X Y} (nsol : Z) (parallel : option bool) :
  @finish X Y nsol parallel [] = Raise (IndexError "list index out of range").
Proof. reflexivity. Qed.

Lemma finish_inv {X Y} (nsol : Z) (parallel : option bool)
  (rows : list (D * X * Y)) (r : Report X Y) :
  finish nsol parallel rows = Ok r ->
  rows <> [] /\
  _dist r = map row0 (sort_by row0 rows) /\
  head (_dist r) = Some (_dmin r) /\
  last (_dist r) = Some (_dmax r).
Proof.
  unfold finish. cbv zeta. rewrite getitem_0, getitem_neg1.
  destruct (sort_by row0 rows) as [|x l] eqn:E; cbn; [discriminate|].
  destruct (last (x :: l)) as [z|] eqn:El; cbn; [|discriminate].
  intros [= <-]. cbn [_dist _dmin _dmax].
  split; [intros ->; discriminate|].
  split; [reflexivity|]. split; [reflexivity|].
  change (row0 x :: map row0 l) with (row0 <$> (x :: l)).
  now rewrite fmap_last, El.
Qed.

Lemma finish_ok {X Y} (nsol : Z) (parallel : option bool)
  (rows : list (D * X * Y)) :
  rows <> [] -> exists r, finish nsol parallel rows = Ok r.
Proof.
  intros Hne. unfold finish. cbv zeta. rewrite getitem_0, getitem_neg1.
  destruct (sort_by row0 rows) as [|x l] eqn:E.
  - now apply sort_by_nil_inv in E.
  - destruct (last (x :: l)) as [z|] eqn:El; cbn.
    + now eexists.
    + now apply last_None in El.
Qed.

(** The rows of a loop over [range(1, n + 1)], then [finish]. *)
Definition collect {X Y} (f : Z -> result (D * X * Y)) (n : Z)
  (parallel : option bool) : result summary :=
  (r <- (rows <- for_rows f (range 1 (n + 1)) ;; finish n parallel rows) ;;
   Ok (summarize r))%res.

Lemma collect_inv {X Y} (f : Z -> result (D * X * Y)) (n : Z)
  (parallel : option bool) (s : summary) :
  collect f n parallel = Ok s ->
  exists rows, for_rows f (range 1 (n + 1)) = Ok rows /\ rows <> [] /\
    distances s = map row0 (sort_by row0 rows) /\
    head (distances s) = Some (dmin s) /\
    last (distances s) = Some (dmax s).
Proof.
  unfold collect.
  destruct (for_rows f (range 1 (n + 1))) as [rows|e]; cbn; [|discriminate].
  destruct (finish n parallel rows) as [r|e] eqn:E; cbn; [|discriminate].
  intros [= <-]. exists rows. split; [reflexivity|].
  now apply finish_inv in E.
Qed.

Lemma collect_ok {X Y} (f : Z -> result (D * X * Y)) (n : Z)
  (parallel : option bool) :
  1 <= n ->
  (forall i, 1 <= i <= n -> exists row, f i = Ok row) ->
  exists s, collect f n parallel = Ok s.
Proof.
  intros Hn Hf. unfold collect.
  destruct (for_rows_total f (range 1 (n + 1))) as [rows E].
  { intros i Hi. apply range_elem in Hi. apply Hf. lia. }
  rewrite E. cbn.
  destruct (finish_ok n parallel rows) as [r ->]; [|cbn; now eexists].
  intros ->. apply for_rows_length in E. rewrite range_length in E.
  cbn in E. lia.
Qed.

Lemma collect_zero {X Y} (f : Z -> result (D * X * Y)) (n : Z)
  (parallel : option bool) :
  n <= 0 ->
  collect f n parallel = Raise (IndexError "list index out of range").
Proof.
  intros Hn. unfold collect. rewrite range_nil by lia. reflexivity.
Qed.

(** Each call is the not-done test followed by [collect]. *)
Lemma run_not_done (c : call) :
  done c = false -> run c = Raise (not_done_error (kind_of c)).
Proof.
  destruct c as [t|t|t|t|t]; cbn; intros Hd;
    unfold DistancePointToCurve, DistancePointToSurface, DistanceCurveToCurve,
      DistanceCurveToSurface, DistanceSurfaceToSurface;
    rewrite Hd; reflexivity.
Qed.


Ltac break_pairs :=
  repeat match goal with
         | |- context [match ?x with pair _ _ => _ end] => destruct x; cbn
         end.

Lemma run_done (c : call) :
  done c = true ->
  exists (X Y : Type) (f : Z -> result (D * X * Y)) (parallel : option bool),
    run c = collect f (nb_ext c) parallel /\
    (forall i d, sqrt (square_distance c i) = Ok d -> exists row, f i = Ok row) /\
    (forall i row, f i = Ok row -> sqrt (square_distance c i) = Ok (row0 row)).
Proof.
  destruct c as [t|t|t|t|t]; cbn; intros Hd;
    unfold DistancePointToCurve, DistancePointToSurface, DistanceCurveToCurve,
      DistanceCurveToSurface, DistanceSurfaceToSurface;
    rewrite Hd; cbn [negb];
    do 3 eexists; eexists;
    (split; [unfold collect, finish; reflexivity|]);
    (split; [intros i d ->; cbn; break_pairs; now eexists
            |intros i row; destruct (sqrt (SquareDistance t i)); cbn;
               [|discriminate];
               break_pairs; now intros [= <-]]).
Qed.

(** The squared distances of a call whose square roots exist. *)
Definition roots_exist (c : call) : Prop :=
  forall i, 1 <= i <= nb_ext c -> exists d, sqrt (square_distance c i) = Ok d.


(** C4, as the code has it. A call whose solver reports done and
    enumerates no solution reads the first element of an empty list: it
    raises [IndexError], not the error of a solver that is not done. *)
Theorem done_zero_solutions_index_error (c : call) :
  done c = true -> nb_ext c <= 0 ->
  run c = Raise (IndexError "list index out of range").
Proof.
  intros Hd Hn.
  destruct (run_done c Hd) as (X & Y & f & par & -> & _).
  now apply collect_zero.
Qed.

(** C5, on the code. A curve/surface call and a surface/surface call
    whose solvers are not done raise the same error: the message of the
    surface/surface class is the one of the curve/surface class. The
    other three classes have a message of their own. *)
Theorem not_done_surface_surface_message (t : Solver (gp_Pnt * gp_Pnt)) :
  IsDone t = false ->
  DistanceSurfaceToSurface t =
    Raise (RuntimeError "Extrema between curve and surface failed.") /\
  DistanceSurfaceToSurface t = DistanceCurveToSurface t.
Proof.
  intros Hd. unfold DistanceSurfaceToSurface, DistanceCurveToSurface.
  rewrite Hd. split; reflexivity.
Qed.

(** *** More on the five constructors *)

Lemma range_In (a b i : Z) : a <= i < b -> In i (range a b).
Proof.
  intros H. unfold range. apply in_map_iff.
  exists (Z.to_nat (i - a)). split; [lia|]. apply in_seq. lia.
Qed.

Lemma seq_offset (n m : nat) : seq n m = map (fun k => (n + k)%nat) (seq 0 m).
Proof.
  induction n as [|n IH].
  - cbn. symmetry. erewrite map_ext; [apply map_id|]. reflexivity.
  - rewrite <- seq_shift, IH, map_map. reflexivity.
Qed.

Lemma range_split (a i b : Z) :
  a <= i <= b -> range a b = range a i ++ range i b.
Proof.
  intros H. unfold range.
  replace (Z.to_nat (b - a)) with (Z.to_nat (i - a) + Z.to_nat (b - i))%nat by lia.
  rewrite seq_app, map_app. f_equal. cbn [Nat.add].
  rewrite seq_offset, map_map. apply map_ext. intros k. lia.
Qed.

Lemma for_rows_Forall2 {A B} (f : A -> result B) (l : list A) (ys : list B) :
  for_rows f l = Ok ys <-> Forall2 (fun x y => f x = Ok y) l ys.
Proof.
  revert ys. induction l as [|x l IH]; intros ys; cbn.
  - split; [intros [= <-]; constructor|]. intros H. now inversion H.
  - split.
    + destruct (f x) as [y|e] eqn:E; cbn; [|discriminate].
      destruct (for_rows f l) as [zs|e]; cbn; [|discriminate].
      intros [= <-]. constructor; [exact E|]. now apply IH.
    + intros H. inversion H as [|x' y l' zs Hy Hl]; subst.
      rewrite Hy. cbn. apply IH in Hl. rewrite Hl. reflexivity.
Qed.

Lemma for_rows_first_raise {A B} (f : A -> result B) (pre : list A) (x : A)
  (post : list A) (e : exn) :
  (forall z, In z pre -> exists y, f z = Ok y) ->
  f x = Raise e ->
  for_rows f (pre ++ x :: post) = Raise e.
Proof.
  intros Hpre Hx. induction pre as [|z pre IH]; cbn.
  - now rewrite Hx.
  - destruct (Hpre z (or_introl eq_refl)) as [y ->]. cbn.
    rewrite IH; [reflexivity|]. intros z' Hz'. apply Hpre. now right.
Qed.

(** Each call is the not-done test, then one row per solution with the
    square root of its squared distance first, then [collect]. *)
Lemma run_rows (c : call) :
  exists (X Y : Type) (f : Z -> result (D * X * Y)) (parallel : option bool),
    run c = (if negb (done c) then Raise (not_done_error (kind_of c))
             else collect f (nb_ext c) parallel) /\
    forall i, exists x y,
      f i = (d <- sqrt (square_distance c i) ;; Ok (d, x, y))%res.
Proof.
  destruct c as [t|t|t|t|t]; do 3 eexists; eexists; cbn;
    unfold DistancePointToCurve, DistancePointToSurface, DistanceCurveToCurve,
      DistanceCurveToSurface, DistanceSurfaceToSurface;
    (split;
     [destruct (IsDone t); cbn [negb]; [unfold collect, finish|]; reflexivity
     |intros i; cbn; break_pairs; eexists; eexists; reflexivity]).
Qed.

Lemma Forall2_In_left {A B} (P : A -> B -> Prop) (l : list A) (ys : list B) (x : A) :
  Forall2 P l ys -> In x l -> exists y, In y ys /\ P x y.
Proof.
  induction 1 as [|a b l ys Hab Hl IH]; cbn; [contradiction|].
  intros [->|Hx]; [exists b; auto|].
  destruct (IH Hx) as (y & Hy & Hp). exists y. auto.
Qed.

Lemma Forall2_In_right {A B} (P : A -> B -> Prop) (l : list A) (ys : list B) (y : B) :
  Forall2 P l ys -> In y ys -> exists x, In x l /\ P x y.
Proof.
  induction 1 as [|a b l ys Hab Hl IH]; cbn; [contradiction|].
  intros [->|Hy]; [exists a; auto|].
  destruct (IH Hy) as (x & Hx & Hp). exists x. auto.
Qed.

(** What a call that returns gives back: the square roots of the
    squared distances of the solver, in some order. *)
Lemma run_ok_inv (c : call) (s : summary) :
  run c = Ok s ->
  done c = true /\
  exists ds,
    Forall2 (fun i d => sqrt (square_distance c i) = Ok d)
      (range 1 (nb_ext c + 1)) ds /\
    ds <> [] /\
    Permutation (distances s) ds /\
    head (distances s) = Some (dmin s) /\
    last (distances s) = Some (dmax s).
Proof.
  destruct (run_rows c) as (X & Y & f & par & -> & Hf).
  destruct (done c); cbn [negb]; [|discriminate].
  intros (rows & Hrows & Hne & Hdist & Hh & Hl)%collect_inv.
  split; [reflexivity|]. exists (map row0 rows).
  split; [|split; [|split; [|now split]]].
  - apply for_rows_Forall2 in Hrows. clear -Hrows Hf.
    induction Hrows as [|i row l rows Hi Hl IH]; cbn; constructor; [|exact IH].
    destruct (Hf i) as (x & y & E). rewrite E in Hi.
    destruct (sqrt (square_distance c i)) as [d|e]; cbn in Hi; [|discriminate].
    now injection Hi as <-.
  - intros E. apply map_eq_nil in E. contradiction.
  - rewrite Hdist. apply Permutation_map, sort_by_perm.
Qed.

(** X1. A call returns a report exactly when its solver is done, lists
    at least one solution, and [math.sqrt] is defined on the squared
    distance of every solution. *)
Theorem report_iff (c : call) :
  (exists s, run c = Ok s) <->
  done c = true /\ 1 <= nb_ext c /\ roots_exist c.
Proof.
  split.
  - intros [s Hs]. apply run_ok_inv in Hs as (Hd & ds & Hds & Hne & _).
    split; [exact Hd|].
    assert (Hn : 1 <= nb_ext c).
    { destruct (Z_lt_le_dec (nb_ext c) 1) as [Hlt|Hle]; [|exact Hle].
      rewrite range_nil in Hds by lia. inversion Hds. congruence. }
    split; [exact Hn|].
    intros i Hi.
    destruct (Forall2_In_left _ _ _ i Hds) as (d & _ & Hd'); [apply range_In; lia|].
    now exists d.
  - intros (Hd & Hn & Hroots).
    destruct (run_rows c) as (X & Y & f & par & -> & Hf).
    rewrite Hd. cbn [negb]. apply collect_ok; [exact Hn|].
    intros i Hi. destruct (Hroots i Hi) as [d Hd'].
    destruct (Hf i) as (x & y & ->). rewrite Hd'. cbn. now eexists.
Qed.

(** X2. When the solver is done, the error of [math.sqrt] on the first
    solution whose squared distance is outside its domain is the error
    of the call: no report is built from the solutions before it. *)
Theorem sqrt_error_propagates (c : call) (i : Z) (e : exn) :
  done c = true -> 1 <= i <= nb_ext c ->
  (forall j, 1 <= j < i -> exists d, sqrt (square_distance c j) = Ok d) ->
  sqrt (square_distance c i) = Raise e ->
  run c = Raise e.
Proof.
  intros Hd Hi Hbefore He.
  destruct (run_rows c) as (X & Y & f & par & -> & Hf).
  rewrite Hd. cbn [negb]. unfold collect.
  rewrite (range_split 1 i (nb_ext c + 1)) by lia.
  rewrite (range_cons i) by lia.
  rewrite (for_rows_first_raise f _ i _ e); [reflexivity| |].
  - intros j Hj%range_elem. destruct (Hbefore j Hj) as [d Hd'].
    destruct (Hf j) as (x & y & ->). rewrite Hd'. cbn. now eexists.
  - destruct (Hf i) as (x & y & ->). now rewrite He.
Qed.

(** X4. The distances of a report are the square roots of the squared
    distances of the solver, each solution once, in some order. *)
Theorem distances_are_the_roots (c : call) (s : summary) :
  run c = Ok s ->
  exists ds,
    Forall2 (fun i d => sqrt (square_distance c i) = Ok d)
      (range 1 (nb_ext c + 1)) ds /\
    Permutation (distances s) ds.
Proof.
  intros (_ & ds & Hds & _ & Hp & _)%run_ok_inv. now exists ds.
Qed.

Section Bounds.

(** Python's [<] on floats that are not NaN. *)
Hypothesis ltb_asym : forall x y, ltb x y = true -> ltb y x = false.
Hypothesis le_trans : forall x y z, le x y -> le y z -> le x z.

Lemma le_refl (x : D) : le x x.
Proof.
  unfold le. destruct (ltb x x) eqn:E; [|reflexivity].
  pose proof (ltb_asym x x E). congruence.
Qed.

Lemma sorted_head_least (l : list D) (a d : D) :
  StronglySorted le l -> head l = Some a -> In d l -> le a d.
Proof.
  intros Hs Hh Hd. destruct l as [|x l]; [discriminate|].
  injection Hh as ->. apply StronglySorted_inv in Hs as [_ Hall].
  destruct Hd as [->|Hd]; [apply le_refl|].
  rewrite List.Forall_forall in Hall. now apply Hall.
Qed.

Lemma sorted_last_greatest (l : list D) (b d : D) :
  StronglySorted le l -> last l = Some b -> In d l -> le d b.
Proof.
  intros Hs Hl Hd. apply last_Some in Hl as [l' ->].
  apply in_app_or in Hd as [Hd|[->|[]]]; [|apply le_refl].
  induction l' as [|x l' IH]; [contradiction|].
  apply StronglySorted_inv in Hs as [Hs Hall].
  destruct Hd as [->|Hd]; [|now apply IH].
  rewrite List.Forall_forall in Hall. apply Hall, in_or_app. right. now left.
Qed.

Lemma run_ok_sorted (c : call) (s : summary) :
  run c = Ok s -> StronglySorted le (distances s).
Proof.
  destruct (run_rows c) as (X & Y & f & par & -> & _).
  destruct (done c); cbn [negb]; [|discriminate].
  intros (rows & _ & _ & -> & _)%collect_inv.
  apply map_sorted, sort_by_sorted; assumption.
Qed.

(** X5. In a report, [dmin] and [dmax] are the least and the greatest
    of the distances of the solver: each is the square root of the
    squared distance of some solution, and the distance of every
    solution lies between them. *)
Theorem dmin_dmax_are_the_extremes (c : call) (s : summary) :
  run c = Ok s ->
  (forall i d, 1 <= i <= nb_ext c -> sqrt (square_distance c i) = Ok d ->
     le (dmin s) d /\ le d (dmax s)) /\
  (exists i, 1 <= i <= nb_ext c /\ sqrt (square_distance c i) = Ok (dmin s)) /\
  (exists i, 1 <= i <= nb_ext c /\ sqrt (square_distance c i) = Ok (dmax s)).
Proof.
  intros Hrun. pose proof (run_ok_sorted c s Hrun) as Hs.
  apply run_ok_inv in Hrun as (_ & ds & Hds & _ & Hp & Hh & Hl).
  assert (Hback : forall d, In d (distances s) ->
            exists i, 1 <= i <= nb_ext c /\ sqrt (square_distance c i) = Ok d).
  { intros d Hd. apply (Permutation_in _ Hp) in Hd.
    destruct (Forall2_In_right _ _ _ d Hds Hd) as (i & Hi%range_elem & E).
    exists i. split; [lia|exact E]. }
  split; [|split].
  - intros i d Hi E.
    destruct (Forall2_In_left _ _ _ i Hds) as (d' & Hd' & E');
      [apply range_In; lia|].
    assert (d' = d) as -> by congruence.
    apply (Permutation_in _ (Permutation_sym Hp)) in Hd'.
    split; [eapply sorted_head_least|eapply sorted_last_greatest]; eassumption.
  - apply Hback. apply list_elem_of_In. now apply head_Some_elem_of.
  - apply Hback. apply list_elem_of_In. now apply last_Some_elem_of.
Qed.

End Bounds.

(** *** The rows of a report *)

(** Row [k] of a report: its [k]-th distance with the [k]-th element of
    each of the two other lists. *)
Definition report_rows {X Y} (r : Report X Y) : list (D * X * Y) :=
  zip (zip (_dist r) (_col1 r)) (_col2 r).

(** Solution [i] of a point solver, as a row: the distance, the
    parameter(s) and the point. *)
Definition point_row {U} (t : Solver (POn U)) (i : Z) (row : D * U * Pnt) : Prop :=
  sqrt (SquareDistance t i) = Ok (row0 row) /\
  row1 row = Param (Solution t i) /\
  row2 row = to_point (Value (Solution t i)).

(** Solution [i] of a solver on two curves or surfaces, as a row: the
    distance and the two points. *)
Definition pair_row (t : Solver (gp_Pnt * gp_Pnt)) (i : Z) (row : D * Pnt * Pnt)
  : Prop :=
  sqrt (SquareDistance t i) = Ok (row0 row) /\
  row1 row = to_point (fst (Solution t i)) /\
  row2 row = to_point (snd (Solution t i)).

(** The report has one row per solution of the solver, each solution
    once, and its three lists have the length [n]. *)
Definition aligned {X Y} (n : Z) (is_row : Z -> D * X * Y -> Prop)
  (r : Report X Y) : Prop :=
  _nsol r = n /\
  length (_dist r) = Z.to_nat n /\
  length (_col1 r) = Z.to_nat n /\
  length (_col2 r) = Z.to_nat n /\
  exists rows, Forall2 is_row (range 1 (n + 1)) rows /\
               Permutation (report_rows r) rows.

(** Two distances of which none is below the other. *)
Definition tied (d e : D) : bool := negb (ltb d e) && negb (ltb e d).

(** The rows of the report at a distance tied with [d] are those of the
    solver, in the order of the solver. *)
Definition keeps_ties {X Y} (n : Z) (is_row : Z -> D * X * Y -> Prop)
  (r : Report X Y) : Prop :=
  exists rows, Forall2 is_row (range 1 (n + 1)) rows /\
    forall d, List.filter (fun row => tied d (row0 row)) (report_rows r) =
              List.filter (fun row => tied d (row0 row)) rows.

Lemma zip_rows {X Y} (l : list (D * X * Y)) :
  zip (zip (map row0 l) (map row1 l)) (map row2 l) = l.
Proof.
  induction l as [|[[d x] y] l IH]; cbn; [reflexivity|]. now rewrite IH.
Qed.

Lemma constructor_rows {X Y} (f : Z -> result (D * X * Y))
  (is_row : Z -> D * X * Y -> Prop) (n : Z) (parallel : option bool)
  (r : Report X Y) :
  (forall i row, f i = Ok row -> is_row i row) ->
  (rows <- for_rows f (range 1 (n + 1)) ;; finish n parallel rows)%res = Ok r ->
  exists rows,
    Forall2 is_row (range 1 (n + 1)) rows /\
    length rows = Z.to_nat n /\
    _nsol r = n /\ _parallel r = parallel /\
    _dist r = map row0 (sort_by row0 rows) /\
    _col1 r = map row1 (sort_by row0 rows) /\
    _col2 r = map row2 (sort_by row0 rows).
Proof.
  intros Hf.
  destruct (for_rows f (range 1 (n + 1))) as [rows|e] eqn:E; cbn; [|discriminate].
  unfold finish. cbv zeta.
  destruct (getitem (sort_by row0 rows) 0) as [a|e]; cbn; [|discriminate].
  destruct (getitem (sort_by row0 rows) (-1)) as [b|e]; cbn; [|discriminate].
  intros [= <-]. exists rows. cbn.
  split; [|split; [|now repeat split]].
  - apply for_rows_Forall2 in E. eapply Forall2_impl; [exact E|].
    intros i row. apply Hf.
  - apply for_rows_length in E. rewrite E, range_length. f_equal. lia.
Qed.

Lemma rows_aligned {X Y} (f : Z -> result (D * X * Y))
  (is_row : Z -> D * X * Y -> Prop) (n : Z) (parallel : option bool)
  (r : Report X Y) :
  (forall i row, f i = Ok row -> is_row i row) ->
  (rows <- for_rows f (range 1 (n + 1)) ;; finish n parallel rows)%res = Ok r ->
  aligned n is_row r /\ _parallel r = parallel.
Proof.
  intros Hf Hr.
  destruct (constructor_rows f is_row n parallel r Hf Hr)
    as (rows & Hrows & Hlen & Hn & Hp & Hd & H1 & H2).
  split; [|exact Hp]. unfold aligned, report_rows. rewrite Hd, H1, H2.
  rewrite !length_map, sort_by_length, zip_rows.
  repeat split; try assumption.
  exists rows. split; [exact Hrows|apply sort_by_perm].
Qed.

Lemma point_row_of {U} (t : Solver (POn U)) (i : Z) (row : D * U * Pnt) :
  (di <- sqrt (SquareDistance t i) ;;
   Ok (di, Param (Solution t i), to_point (Value (Solution t i))))%res = Ok row ->
  point_row t i row.
Proof.
  unfold point_row.
  destruct (sqrt (SquareDistance t i)) as [d|e]; cbn; [|discriminate].
  now intros [= <-].
Qed.

Lemma pair_row_of (t : Solver (gp_Pnt * gp_Pnt)) (i : Z) (row : D * Pnt * Pnt) :
  (di <- sqrt (SquareDistance t i) ;;
   let '(gp_pnt1, gp_pnt2) := Solution t i in
   Ok (di, to_point gp_pnt1, to_point gp_pnt2))%res = Ok row ->
  pair_row t i row.
Proof.
  unfold pair_row.
  destruct (sqrt (SquareDistance t i)) as [d|e]; cbn; [|discriminate].
  destruct (Solution t i) as [g1 g2]. now intros [= <-].
Qed.

Lemma point_surface_row_of (t : Solver (POn (D * D))) (i : Z)
  (row : D * (D * D) * Pnt) :
  (di <- sqrt (SquareDistance t i) ;;
   let '(ui, vi) := Param (Solution t i) in
   Ok (di, (ui, vi), to_point (Value (Solution t i))))%res = Ok row ->
  point_row t i row.
Proof.
  unfold point_row.
  destruct (sqrt (SquareDistance t i)) as [d|e]; cbn; [|discriminate].
  destruct (Param (Solution t i)) as [u v]. now intros [= <-].
Qed.

(** X6. In the report of each of the five classes, the three lists have
    the length [nsol], and the rows are the solutions of the solver,
    each one once: the parameter(s) and the point(s) at a position are
    those of the solution whose distance is at that position. The
    classes on two curves or surfaces report the [IsParallel] of the
    solver. *)
Theorem columns_follow_distances :
  (forall t r, DistancePointToCurve t = Ok r ->
     aligned (NbExt t) (point_row t) r) /\
  (forall t r, DistancePointToSurface t = Ok r ->
     aligned (NbExt t) (point_row t) r) /\
  (forall t r, DistanceCurveToCurve t = Ok r ->
     aligned (NbExt t) (pair_row t) r /\ _parallel r = Some (IsParallel t)) /\
  (forall t r, DistanceCurveToSurface t = Ok r ->
     aligned (NbExt t) (pair_row t) r /\ _parallel r = Some (IsParallel t)) /\
  (forall t r, DistanceSurfaceToSurface t = Ok r ->
     aligned (NbExt t) (pair_row t) r /\ _parallel r = Some (IsParallel t)).
Proof.
  split; [|split; [|split; [|split]]]; intros t r;
    unfold DistancePointToCurve, DistancePointToSurface, DistanceCurveToCurve,
      DistanceCurveToSurface, DistanceSurfaceToSurface;
    (destruct (IsDone t); cbn [negb]; [|discriminate]); intros Hr.
  - eapply (rows_aligned _ (point_row t)); [|exact Hr]. apply point_row_of.
  - eapply (rows_aligned _ (point_row t)); [|exact Hr].
    apply point_surface_row_of.
  - eapply (rows_aligned _ (pair_row t)); [|exact Hr]. apply pair_row_of.
  - eapply (rows_aligned _ (pair_row t)); [|exact Hr]. apply pair_row_of.
  - eapply (rows_aligned _ (pair_row t)); [|exact Hr]. apply pair_row_of.
Qed.

Section Ties.

Hypothesis le_trans : forall x y z, le x y -> le y z -> le x z.

Lemma insert_by_ties {A} (key : A -> D) (d : D) (x : A) (l : list A) :
  List.filter (fun y => tied d (key y)) (insert_by key x l) =
  List.filter (fun y => tied d (key y)) (x :: l).
Proof.
  induction l as [|y l IH]; [reflexivity|].
  cbn [insert_by]. destruct (ltb (key y) (key x)) eqn:E; [|reflexivity].
  cbn [List.filter] in *. rewrite IH.
  destruct (tied d (key y)) eqn:Ey; [|reflexivity].
  destruct (tied d (key x)) eqn:Ex; [|reflexivity].
  exfalso. unfold tied in Ey, Ex.
  apply andb_prop in Ey as [_ Ey%negb_true_iff].
  apply andb_prop in Ex as [Ex%negb_true_iff _].
  pose proof (le_trans (key x) d (key y) Ex Ey) as H. unfold le in H.
  congruence.
Qed.

Lemma sort_by_ties {A} (key : A -> D) (d : D) (l : list A) :
  List.filter (fun y => tied d (key y)) (sort_by key l) =
  List.filter (fun y => tied d (key y)) l.
Proof.
  induction l as [|x l IH]; [reflexivity|].
  cbn [sort_by]. rewrite insert_by_ties. cbn [List.filter]. now rewrite IH.
Qed.

Lemma rows_keep_ties {X Y} (f : Z -> result (D * X * Y))
  (is_row : Z -> D * X * Y -> Prop) (n : Z) (parallel : option bool)
  (r : Report X Y) :
  (forall i row, f i = Ok row -> is_row i row) ->
  (rows <- for_rows f (range 1 (n + 1)) ;; finish n parallel rows)%res = Ok r ->
  keeps_ties n is_row r.
Proof.
  intros Hf Hr.
  destruct (constructor_rows f is_row n parallel r Hf Hr)
    as (rows & Hrows & _ & _ & _ & Hd & H1 & H2).
  exists rows. split; [exact Hrows|]. intros d.
  unfold report_rows. rewrite Hd, H1, H2, zip_rows. apply sort_by_ties.
Qed.

(** X7. In the report of each of the five classes, the solutions whose
    distances are tied come in the order in which the solver lists
    them. *)
Theorem ties_keep_solver_order :
  (forall t r, DistancePointToCurve t = Ok r ->
     keeps_ties (NbExt t) (point_row t) r) /\
  (forall t r, DistancePointToSurface t = Ok r ->
     keeps_ties (NbExt t) (point_row t) r) /\
  (forall t r, DistanceCurveToCurve t = Ok r ->
     keeps_ties (NbExt t) (pair_row t) r) /\
  (forall t r, DistanceCurveToSurface t = Ok r ->
     keeps_ties (NbExt t) (pair_row t) r) /\
  (forall t r, DistanceSurfaceToSurface t = Ok r ->
     keeps_ties (NbExt t) (pair_row t) r).
Proof.
  split; [|split; [|split; [|split]]]; intros t r;
    unfold DistancePointToCurve, DistancePointToSurface, DistanceCurveToCurve,
      DistanceCurveToSurface, DistanceSurfaceToSurface;
    (destruct (IsDone t); cbn [negb]; [|discriminate]); intros Hr.
  - eapply (rows_keep_ties _ (point_row t)); [|exact Hr]. apply point_row_of.
  - eapply (rows_keep_ties _ (point_row t)); [|exact Hr].
    apply point_surface_row_of.
  - eapply (rows_keep_ties _ (pair_row t)); [|exact Hr]. apply pair_row_of.
  - eapply (rows_keep_ties _ (pair_row t)); [|exact Hr]. apply pair_row_of.
  - eapply (rows_keep_ties _ (pair_row t)); [|exact Hr]. apply pair_row_of.
Qed.

End Ties.

Lemma for_rows_raise_inv {A B} (f : A -> result B) (l : list A) (e : exn) :
  for_rows f l = Raise e -> exists x, In x l /\ f x = Raise e.
Proof.
  induction l as [|x l IH]; cbn; [discriminate|].
  destruct (f x) as [y|e'] eqn:E; cbn.
  - destruct (for_rows f l) as [ys|e'']; cbn; [discriminate|].
    intros [= ->]. destruct (IH eq_refl) as (z & Hz & Hf).
    exists z. split; [now right|exact Hf].
  - intros [= ->]. exists x. split; [now left|exact E].
Qed.

(** X3. The errors of a call, all of them: the [RuntimeError] of its
    class when the solver is not done; [IndexError] when the solver is
    done and lists no solution; the error of [math.sqrt] on the squared
    distance of one of the solutions. *)
Theorem errors_of_a_call (c : call) (e : exn) :
  run c = Raise e ->
  (done c = false /\ e = not_done_error (kind_of c)) \/
  (done c = true /\ nb_ext c <= 0 /\
   e = IndexError "list index out of range") \/
  (done c = true /\
   exists i, 1 <= i <= nb_ext c /\ sqrt (square_distance c i) = Raise e).
Proof.
  destruct (run_rows c) as (X & Y & f & par & -> & Hf).
  destruct (done c); cbn [negb]; [|intros [= <-]; now left].
  intros Hrun. right. unfold collect in Hrun.
  destruct (for_rows f (range 1 (nb_ext c + 1))) as [rows|e'] eqn:E;
    cbn in Hrun.
  - left. split; [reflexivity|].
    destruct rows as [|row rows].
    + apply for_rows_length in E. rewrite range_length in E. cbn in E.
      rewrite finish_nil in Hrun. cbn in Hrun. split; [lia|congruence].
    + destruct (finish_ok (nb_ext c) par (row :: rows)) as [r Hr];
        [discriminate|].
      rewrite Hr in Hrun. discriminate.
  - right. split; [reflexivity|]. injection Hrun as ->.
    apply for_rows_raise_inv in E as (i & Hi%range_elem & Hfi).
    exists i. split; [lia|].
    destruct (Hf i) as (x & y & Hx). rewrite Hx in Hfi.
    destruct (sqrt (square_distance c i)); cbn in Hfi; [discriminate|].
    now injection Hfi as ->.
Qed.

End Extrema.

Arguments IsDone {D Sol} _.
Arguments NbExt {D Sol} _.
Arguments IsParallel {D Sol} _.
Arguments SquareDistance {D Sol} _ _.
Arguments Solution {D Sol} _ _.
Arguments dmin {D} _.
Arguments dmax {D} _.
Arguments distances {D} _.

(** *** A concrete kernel

    Distances in [Z] with Python's [<] as [Z.ltb]; a solver that lists
    the squared distances it is given, and whose points are their own
    indices. *)

Definition zsqrt (x : Z) : result Z :=
  if x <? 0 then Raise (ValueError "math domain error") else Ok (Z.sqrt x).

Definition list_solver {Sol} (is_done : bool) (sq : list Z) (sol : Z -> Sol)
  : Solver Z Sol :=
  {| IsDone := is_done;
     NbExt := Z.of_nat (length sq);
     IsParallel := false;
     SquareDistance := fun i => nth (Z.to_nat (i - 1)) sq 0;
     Solution := sol |}.

Definition on_curve (i : Z) : POn Z Z := {| Value := i; Param := i |}.

Definition zrun : call Z Z -> result (summary Z) := run Z Z.ltb zsqrt Z Z id.

Lemma Zle_trans (x y z : Z) : le Z Z.ltb x y -> le Z Z.ltb y z -> le Z Z.ltb x z.
Proof. unfold le. rewrite !Z.ltb_ge. lia. Qed.

Example three_solutions :
  zrun (CallPointToCurve Z Z (list_solver true [9; 1; 4] on_curve)) =
  Ok {| dmin := 1; dmax := 3; distances := [1; 2; 3] |}.
Proof. reflexivity. Qed.

Example negative_square :
  zrun (CallPointToCurve Z Z (list_solver true [9; -1; 4] on_curve)) =
  Raise (ValueError "math domain error").
Proof. reflexivity. Qed.

Example points_follow_distances :
  DistanceCurveToCurve Z Z.ltb zsqrt Z Z id
    (list_solver true [9; 1; 4; 1] (fun i => (i, 10 * i))) =
  Ok {| _nsol := 4; _parallel := Some false; _dmin := 1; _dmax := 3;
        _dist := [1; 1; 2; 3];
        _col1 := [2; 4; 3; 1];
        _col2 := [20; 40; 30; 10] |}.
Proof. reflexivity. Qed.

(** *** Floats with a NaN

    Distances in [option Z], where [None] is the NaN: every [<] with a
    NaN is false, and [math.sqrt] of a NaN is a NaN. *)

Definition nan_ltb (x y : option Z) : bool :=
  match x, y with
  | Some a, Some b => a <? b
  | _, _ => false
  end.

Definition nan_sqrt (x : option Z) : result (option Z) :=
  match x with
  | Some a => if a <? 0 then Raise (ValueError "math domain error")
              else Ok (Some (Z.sqrt a))
  | None => Ok None
  end.

Definition nan_solver {Sol} (is_done : bool) (sq : list (option Z))
  (sol : Z -> Sol) : Solver (option Z) Sol :=
  {| IsDone := is_done;
     NbExt := Z.of_nat (length sq);
     IsParallel := false;
     SquareDistance := fun i => nth (Z.to_nat (i - 1)) sq None;
     Solution := sol |}.

Definition nan_run : call (option Z) Z -> result (summary (option Z)) :=
  run (option Z) nan_ltb nan_sqrt Z Z id.

(** [<] orders the floats of a list without a NaN. *)
Lemma no_nan_ordered (l : list (option Z)) :
  ~ In None l -> ordered (option Z) nan_ltb l.
Proof.
  intros Hl. split.
  - intros [x|] [y|] _ _; cbn; try discriminate. apply Zltb_asym.
  - intros [x|] [y|] [z|] Hx Hy Hz; try contradiction.
    unfold le. cbn. rewrite !Z.ltb_ge. lia.
Qed.

(** It does not order a list with a NaN between two floats that are
    not in ascending order. *)
Example nan_not_ordered : ~ ordered (option Z) nan_ltb [Some 3; None; Some 1].
Proof.
  intros [_ Ht].
  assert (le (option Z) nan_ltb (Some 3) (Some 1)) as H
    by (apply (Ht (Some 3) None (Some 1)); cbn; auto; reflexivity).
  discriminate H.
Qed.



(** The report of that call, whose distances [<] orders. *)
Example no_nan_sorted :
  nan_run (CallCurveToCurve (option Z) Z
             (nan_solver true [Some 9; Some 1; Some 4] (fun i => (i, i)))) =
  Ok {| dmin := Some 1; dmax := Some 3;
        distances := [Some 1; Some 2; Some 3] |} /\
  ordered (option Z) nan_ltb [Some 1; Some 2; Some 3].
Proof.
  split; [reflexivity|]. apply no_nan_ordered.
  cbn. intros [H|[H|[H|[]]]]; discriminate H.
Qed.

(** C4 as the specification states it fails: with a solver that is done
    and has no solution, the call does not raise the error of a solver
    that is not done. *)
Lemma zero_solutions_other_error :
  let c := CallPointToCurve Z Z (list_solver true [] on_curve) in
  done Z Z c = true /\ nb_ext Z Z c = 0 /\
  zrun c = Raise (IndexError "list index out of range") /\
  zrun (not_done_call Z Z c) =
    Raise (RuntimeError "Extrema between point and curve failed.") /\
  zrun c <> zrun (not_done_call Z Z c).
Proof. repeat split. discriminate. Qed.

Lemma done_zero_solutions_index_error_witness :
  zrun (CallSurfaceToSurface Z Z (list_solver true [] (fun i => (i, i)))) =
  Raise (IndexError "list index out of range").
Proof.
  apply (done_zero_solutions_index_error Z Z.ltb zsqrt Z Z id).
  - reflexivity.
  - vm_compute. discriminate.
Defined.

Lemma not_done_surface_surface_message_witness :
  let t := list_solver false [4] (fun i => (i, i)) in
  DistanceSurfaceToSurface Z Z.ltb zsqrt Z Z id t =
    Raise (RuntimeError "Extrema between curve and surface failed.") /\
  DistanceSurfaceToSurface Z Z.ltb zsqrt Z Z id t =
    DistanceCurveToSurface Z Z.ltb zsqrt Z Z id t.
Proof.
  intros t.
  apply (not_done_surface_surface_message Z Z.ltb zsqrt Z Z id t).
  reflexivity.
Defined.

Example report_iff_no_report :
  ~ exists s, zrun (CallPointToCurve Z Z (list_solver true [9; -1; 4] on_curve)) = Ok s.
Proof. intros [s Hs]. discriminate. Qed.

Lemma sqrt_error_propagates_witness :
  zrun (CallPointToCurve Z Z (list_solver true [9; -1; 4] on_curve)) =
  Raise (ValueError "math domain error").
Proof.
  apply (sqrt_error_propagates Z Z.ltb zsqrt Z Z id _ 2).
  - reflexivity.
  - vm_compute. split; discriminate.
  - intros j Hj. assert (j = 1) as -> by lia. now eexists.
  - reflexivity.
Defined.

Lemma errors_of_a_call_witness :
  let c := CallSurfaceToSurface Z Z (list_solver true [4; -9] (fun i => (i, i))) in
  (done Z Z c = false /\
   ValueError "math domain error" = not_done_error (kind_of Z Z c)) \/
  (done Z Z c = true /\ nb_ext Z Z c <= 0 /\
   ValueError "math domain error" = IndexError "list index out of range") \/
  (done Z Z c = true /\
   exists i, 1 <= i <= nb_ext Z Z c /\
             zsqrt (square_distance Z Z c i) = Raise (ValueError "math domain error")).
Proof.
  intros c.
  apply (errors_of_a_call Z Z.ltb zsqrt Z Z id c).
  reflexivity.
Defined.

Lemma distances_are_the_roots_witness :
  exists ds,
    Forall2 (fun i d => zsqrt (nth (Z.to_nat (i - 1)) [9; 1; 4] 0) = Ok d)
      [1; 2; 3] ds /\
    Permutation [1; 2; 3] ds.
Proof.
  apply (distances_are_the_roots Z Z.ltb zsqrt Z Z id
           (CallPointToCurve Z Z (list_solver true [9; 1; 4] on_curve))
           {| dmin := 1; dmax := 3; distances := [1; 2; 3] |}).
  reflexivity.
Defined.

Lemma dmin_dmax_are_the_extremes_witness :
  let c := CallCurveToCurve Z Z (list_solver true [9; 1; 4] (fun i => (i, i))) in
  (forall i d, 1 <= i <= 3 -> zsqrt (square_distance Z Z c i) = Ok d ->
     le Z Z.ltb 1 d /\ le Z Z.ltb d 3) /\
  (exists i, 1 <= i <= 3 /\ zsqrt (square_distance Z Z c i) = Ok 1) /\
  (exists i, 1 <= i <= 3 /\ zsqrt (square_distance Z Z c i) = Ok 3).
Proof.
  intros c.
  apply (dmin_dmax_are_the_extremes Z Z.ltb zsqrt Z Z id Zltb_asym Zle_trans c
           {| dmin := 1; dmax := 3; distances := [1; 2; 3] |}).
  reflexivity.
Defined.

Lemma columns_follow_distances_witness :
  exists r,
    DistancePointToCurve Z Z.ltb zsqrt Z Z id
      (list_solver true [9; 1; 4] on_curve) = Ok r /\
    report_rows Z r = [(1, 2, 2); (2, 3, 3); (3, 1, 1)] /\
    aligned Z 3 (point_row Z zsqrt Z Z id
                   (list_solver true [9; 1; 4] on_curve)) r.
Proof.
  exists {| _nsol := 3; _parallel := None; _dmin := 1; _dmax := 3;
            _dist := [1; 2; 3]; _col1 := [2; 3; 1]; _col2 := [2; 3; 1] |}.
  split; [reflexivity|]. split; [reflexivity|].
  exact (proj1 (columns_follow_distances Z Z.ltb zsqrt Z Z id)
           (list_solver true [9; 1; 4] on_curve) _ eq_refl).
Defined.

Lemma ties_keep_solver_order_witness :
  exists r,
    DistanceCurveToCurve Z Z.ltb zsqrt Z Z id
      (list_solver true [9; 1; 4; 1] (fun i => (i, 10 * i))) = Ok r /\
    report_rows Z r = [(1, 2, 20); (1, 4, 40); (2, 3, 30); (3, 1, 10)] /\
    keeps_ties Z Z.ltb 4
      (pair_row Z zsqrt Z Z id
         (list_solver true [9; 1; 4; 1] (fun i => (i, 10 * i)))) r.
Proof.
  exists {| _nsol := 4; _parallel := Some false; _dmin := 1; _dmax := 3;
            _dist := [1; 1; 2; 3]; _col1 := [2; 4; 3; 1];
            _col2 := [20; 40; 30; 10] |}.
  split; [reflexivity|]. split; [reflexivity|].
  exact (proj1 (proj2 (proj2
           (ties_keep_solver_order Z Z.ltb zsqrt Z Z id Zle_trans)))
           (list_solver true [9; 1; 4; 1] (fun i => (i, 10 * i))) _ eq_refl).
Defined.

End Distance.

(** ** [afem/structure/join.py] *)

Module Join.

(** Object references. *)
Abbreviation Part := positive (only parsing).
Abbreviation Shape := positive (only parsing).
Abbreviation Curve := positive (only parsing).
Abbreviation Edge := positive (only parsing).
Abbreviation Vertex := positive (only parsing).
Abbreviation Assembly := positive (only parsing).

Section Orchestrator.

(** Python floats and their [<]. *)
Variable D : Type.
Variable ltb : D -> D -> bool.

(** [max(a, b)]: the first of the two unless the second is greater. *)
Definition pymax (a b : D) : D := if ltb a b then b else a.

(** [max(l)] of a list, which raises on the empty list. *)
Definition pymax_list (l : list D) : result D :=
  match l with
  | [] => Raise (ValueError "max() arg is an empty sequence")
  | x :: l' => Ok (fold_left pymax l' x)
  end.

(** *** The world: the shape of every part, and what was computed *)

Inductive Event : Type :=
| EvIntersect (main other : Part) (fuzzy_val : D)
| EvFuse (main : Part) (other_parts : list Part)
| EvCut (part : Part) (cutter : Shape)
| EvBuild (args tools : list Shape)
| EvSew (shapes : list Shape)
| EvCompound (shapes : list Shape)
| EvSetShape (part : Part) (new_shape : Shape).

Record World : Type := {
  shape_of : Part -> Shape;
  history : list Event
}.

(** A computation that reads and writes the world and may raise; what
    was written before an exception stays written. *)
Definition M (A : Type) : Type := World -> result A * World.

Definition ret {A} (a : A) : M A := fun w => (Ok a, w).

Definition bind {A B} (m : M A) (k : A -> M B) : M B :=
  fun w => match m w with
           | (Ok a, w') => k a w'
           | (Raise e, w') => (Raise e, w')
           end.

Definition raise {A} (e : exn) : M A := fun w => (Raise e, w).

Definition lift {A} (r : result A) : M A := fun w => (r, w).

(** The world after more events. *)
Definition add_history (w : World) (evs : list Event) : World :=
  {| shape_of := shape_of w; history := history w ++ evs |}.

Definition emit (e : Event) : M unit :=
  fun w => (Ok tt, add_history w [e]).

Declare Scope world_scope.
Delimit Scope world_scope with world.
Notation "x <- m ;; k" := (bind m (fun x => k))
  (at level 100, m at next level, right associativity) : world_scope.
Notation "m ;;; k" := (bind m (fun _ => k))
  (at level 100, right associativity) : world_scope.
Local Open Scope world_scope.

(** A [for] loop with the variables it updates as [s]. *)
Fixpoint for_each {A S} (l : list A) (body : S -> A -> M S) (s : S) : M S :=
  match l with
  | [] => ret s
  | x :: l' => s' <- body s x ;; for_each l' body s'
  end.

(** *** The part model ([afem.structure.entities]) *)

(** [isinstance(part, SurfacePart)], [part.has_cref], [part.cref]. *)
Variable is_SurfacePart : Part -> bool.
Variable has_cref : Part -> bool.
Variable cref : Part -> Curve.

(** [part.shape] *)
Definition get_shape (part : Part) : M Shape :=
  fun w => (Ok (shape_of w part), w).

(** [part.set_shape(shape)] *)
Definition write (w : World) (part : Part) (shape : Shape) : World :=
  {| shape_of := fun p => if Pos.eqb p part then shape else shape_of w p;
     history := history w ++ [EvSetShape part shape] |}.

Definition set_shape (part : Part) (shape : Shape) : M unit :=
  fun w => (Ok tt, write w part shape).

(** [main.fuse] on the parts to join and [part.cut(shape)], the two methods of a
    part that rewrite shapes on their own; [cut] answers whether the
    part was cut. *)
Variable part_fuse : Part -> list Part -> (Part -> Shape) -> (Part -> Shape).
Variable part_cut : Part -> Shape -> (Part -> Shape) -> bool * (Part -> Shape).

Definition fuse (main : Part) (other_parts : list Part) : M unit :=
  fun w => (Ok tt,
            {| shape_of := part_fuse main other_parts (shape_of w);
               history := history w ++ [EvFuse main other_parts] |}).

Definition cut (part : Part) (shape : Shape) : M bool :=
  fun w => let '(status, shapes) := part_cut part shape (shape_of w) in
           (Ok status,
            {| shape_of := shapes;
               history := history w ++ [EvCut part shape] |}).

(** *** The kernel ([afem.topology]) *)

(** [ExploreShape.global_tolerance(shape, mode)] *)
Variable global_tolerance : Shape -> Z -> D.
(** [EdgeByCurve(curve).edge] *)
Variable EdgeByCurve : Curve -> Edge.
(** [IntersectShapes(e1, e2, fuzzy_val=tol).vertices] *)
Variable IntersectShapes : Edge -> Edge -> D -> list Vertex.
(** [CompoundByShapes(shapes).compound] *)
Variable CompoundByShapes : list Shape -> Shape.
(** [CheckShape.to_shape(shape)] *)
Variable to_shape : Shape -> Shape.
(** [numpy.mean(l, dtype=float)] *)
Variable mean : list D -> D.
(** [assy.get_parts(include_subassy)] *)
Variable get_parts : Assembly -> bool -> list Part.

(** A Boolean tool after [build()]: [is_done], [shape], and the
    modification map from an input shape to the shapes that replace
    it. *)
Record BopTool : Type := {
  is_done : bool;
  shape : Shape;
  modification : Shape -> list Shape
}.

(** [FuseShapes(fuzzy_val)] and [SplitShapes(fuzzy_val)] with their
    arguments and tools set, built. [SplitShapes] may be built with no
    tools set. *)
Variable FuseShapes : option D -> list Shape -> list Shape -> BopTool.
Variable SplitShapes : option D -> list Shape -> option (list Shape) -> BopTool.

(** A sewing tool after [perform()]. *)
Record SewTool : Type := {
  is_modified : Shape -> bool;
  modified : Shape -> Shape
}.

(** [SewShape(tol, max_tol, cut_free_edges=True, non_manifold=True)]
    with the shapes added, performed. *)
Variable SewShape : D -> D -> list Shape -> SewTool.

(** [RebuildShapesByTool(old_shapes, bop)] of [afem.topology.modify], and
    its method [new_shape], which answers with the shape that replaces
    an old one or raises. *)
Record Rebuild : Type := {
  old_shapes : list Shape;
  tool : BopTool
}.

Definition RebuildShapesByTool (old_shapes : list Shape) (bop : BopTool) : Rebuild :=
  {| old_shapes := old_shapes; tool := bop |}.

Variable new_shape : Rebuild -> Shape -> result Shape.

(** The loop that ends [FuseSurfaceParts], [SplitParts] and
    [FuseAssemblies]. *)
Definition rebuild_parts (rebuild : Rebuild) (parts : list Part) : M unit :=
  for_each parts (fun _ part =>
    old <- get_shape part ;;
    new <- lift (new_shape rebuild old) ;;
    set_shape part new) tt.

(** [[part.shape for part in parts]] *)
Definition shapes_of (parts : list Part) : M (list Shape) :=
  fun w => (Ok (map (shape_of w) parts), w).

(** *** [FuseSurfaceParts] *)

Record FuseSurfaceParts_obj : Type := {
  FuseSurfaceParts_is_done : bool;
  FuseSurfaceParts_fused_shape : Shape
}.

Definition FuseSurfaceParts (parts tools : list Part) (fuzzy_val : option D)
  : M FuseSurfaceParts_obj :=
  let other_parts := tools in
  args <- shapes_of parts ;;
  tools <- shapes_of tools ;;
  emit (EvBuild args tools) ;;;
  let bop := FuseShapes fuzzy_val args tools in
  let rebuild := RebuildShapesByTool (args ++ tools) bop in
  rebuild_parts rebuild (parts ++ other_parts) ;;;
  ret {| FuseSurfaceParts_is_done := is_done bop;
         FuseSurfaceParts_fused_shape := shape bop |}.

(** *** [FuseSurfacePartsByCref] *)

Record FuseSurfacePartsByCref_obj : Type := {
  FuseSurfacePartsByCref_is_done : bool
}.

(** The body of the loop on [j]. *)
Definition test_other (tol : option D) (main other : Part)
  (other_parts : list Part) : M (list Part) :=
  if negb (has_cref main) || negb (has_cref other) then ret other_parts
  else
    _tol <- match tol with
            | None =>
                shape1 <- get_shape main ;;
                shape2 <- get_shape other ;;
                let tol1 := global_tolerance shape1 1 in
                let tol2 := global_tolerance shape2 1 in
                ret (pymax tol1 tol2)
            | Some tol => ret tol
            end ;;
    let e1 := EdgeByCurve (cref main) in
    let e2 := EdgeByCurve (cref other) in
    emit (EvIntersect main other _tol) ;;;
    match IntersectShapes e1 e2 _tol with
    | [] => ret other_parts
    | _ :: _ => ret (other_parts ++ [other])
    end.

(** The loop on [i]: the main parts and, for each, the parts to join. *)
Definition test_combinations (parts : list Part) (tol : option D)
  : M (list Part * list (list Part)) :=
  let nparts := Z.of_nat (length parts) in
  for_each (range 0 (nparts - 1)) (fun '(main_parts, join_parts) i =>
    main <- lift (getitem parts i) ;;
    other_parts <- for_each (range (i + 1) nparts) (fun other_parts j =>
                     other <- lift (getitem parts j) ;;
                     test_other tol main other other_parts) [] ;;
    match other_parts with
    | [] => ret (main_parts, join_parts)
    | _ :: _ => ret (main_parts ++ [main], join_parts ++ [other_parts])
    end) ([], []).

(** The loop that joins the parts. *)
Definition join_the_parts (groups : list (Part * list Part)) (_is_done : bool)
  : M bool :=
  for_each groups (fun _ '(main, other_parts) =>
    fuse main other_parts ;;;
    ret true) _is_done.

Definition FuseSurfacePartsByCref (parts : list Part) (tol : option D)
  : M FuseSurfacePartsByCref_obj :=
  let _is_done := false in
  for_each parts (fun _ part =>
    if negb (is_SurfacePart part)
    then raise (TypeError "Part is not a surface part.")
    else ret tt) tt ;;;
  found <- test_combinations parts tol ;;
  let '(main_parts, join_parts) := found in
  _is_done <- join_the_parts (zip main_parts join_parts) _is_done ;;
  ret {| FuseSurfacePartsByCref_is_done := _is_done |}.


(** *** [CutParts] *)

Record CutParts_obj : Type := {
  _status : gmap positive bool
}.

Definition CutParts (parts : list Part) (shape : Shape) : M CutParts_obj :=
  let shape2 := to_shape shape in
  _status <- for_each parts (fun _status part =>
               status <- cut part shape2 ;;
               ret (<[part := status]> _status)) ∅ ;;
  ret {| _status := _status |}.

Definition was_cut (self : CutParts_obj) (part : Part) : result bool :=
  match _status self !! part with
  | Some status => Ok status
  | None => Raise (KeyError part)
  end.

(** *** [SewSurfaceParts] *)

(** The sewing tool of the call, performed. *)
Definition sew_tool (parts : list Part) (tol max_tol : option D) : M SewTool :=
  shapes <- shapes_of parts ;;
  let tol := match tol with
             | None => mean (map (fun shape => global_tolerance shape 0) shapes)
             | Some tol => tol
             end in
  max_tol <- match max_tol with
             | None => lift (pymax_list
                           (map (fun shape => global_tolerance shape 1) shapes))
             | Some max_tol => ret max_tol
             end ;;
  added <- shapes_of parts ;;
  emit (EvSew added) ;;;
  ret (SewShape tol max_tol added).

Definition SewSurfaceParts (parts : list Part) (tol max_tol : option D) : M unit :=
  sew <- sew_tool parts tol max_tol ;;
  for_each parts (fun _ part =>
    shape <- get_shape part ;;
    if negb (is_modified sew shape) then ret tt
    else
      shape <- get_shape part ;;
      let mod_shape := modified sew shape in
      set_shape part mod_shape) tt.

(** *** [SplitParts] *)

Record SplitParts_obj : Type := {
  SplitParts_is_done : bool;
  SplitParts_split_shape : Shape
}.

Definition SplitParts (parts : list Part) (tools : option (list Part))
  (fuzzy_val : option D) : M SplitParts_obj :=
  args <- shapes_of parts ;;
  tools <- match tools with
           | Some tools => tools <- shapes_of tools ;; ret (Some tools)
           | None => ret None
           end ;;
  emit (EvBuild args (default [] tools)) ;;;
  let bop := SplitShapes fuzzy_val args tools in
  let rebuild := RebuildShapesByTool args bop in
  rebuild_parts rebuild parts ;;;
  ret {| SplitParts_is_done := is_done bop;
         SplitParts_split_shape := shape bop |}.

(** *** [FuseAssemblies] *)

Record FuseAssemblies_obj : Type := {
  _bop : BopTool
}.

Definition FuseAssemblies (assys : list Assembly) (fuzzy_val : option D)
  (include_subassy : bool) : M FuseAssemblies_obj :=
  if Z.of_nat (length assys) <? 2 then
    raise (ValueError "Not enough assemblies to fuse. Need at least two.")
  else
    assy0 <- lift (getitem assys 0) ;;
    let parts1 := get_parts assy0 include_subassy in
    shapes1 <- shapes_of parts1 ;;
    emit (EvCompound shapes1) ;;;
    let shape1 := CompoundByShapes shapes1 in
    acc <- for_each (drop 1 assys) (fun '(tools, other_parts) assy =>
             let parts := get_parts assy include_subassy in
             let other_parts := other_parts ++ parts in
             shapes <- shapes_of parts ;;
             emit (EvCompound shapes) ;;;
             let shape := CompoundByShapes shapes in
             ret (tools ++ [shape], other_parts)) ([], []) ;;
    let '(tools, other_parts) := acc in
    emit (EvBuild [shape1] tools) ;;;
    let bop := FuseShapes fuzzy_val [shape1] tools in
    let all_parts := parts1 ++ other_parts in
    all_shapes <- shapes_of all_parts ;;
    let rebuild := RebuildShapesByTool all_shapes bop in
    rebuild_parts rebuild all_parts ;;;
    ret {| _bop := bop |}.


(** *** Steps of a computation *)

Lemma add_history_nil (w : World) : add_history w [] = w.
Proof. destruct w. unfold add_history. cbn. now rewrite app_nil_r. Qed.

Lemma add_history_app (w : World) (a b : list Event) :
  add_history (add_history w a) b = add_history w (a ++ b).
Proof. unfold add_history. cbn. now rewrite app_assoc. Qed.

Lemma bind_ok {A B} (m : M A) (k : A -> M B) (w w1 : World) (a : A) :
  m w = (Ok a, w1) -> bind m k w = k a w1.
Proof. unfold bind. now intros ->. Qed.

Lemma bind_raise {A B} (m : M A) (k : A -> M B) (w w1 : World) (e : exn) :
  m w = (Raise e, w1) -> bind m k w = (Raise e, w1).
Proof. unfold bind. now intros ->. Qed.

Lemma for_each_cons {A S} (x : A) (l : list A) (body : S -> A -> M S) (s : S) :
  for_each (x :: l) body s = (s' <- body s x ;; for_each l body s').
Proof. reflexivity. Qed.

Lemma write_same (w : World) (part : Part) (shape : Shape) :
  shape_of (write w part shape) part = shape.
Proof. cbn. now rewrite Pos.eqb_refl. Qed.

Lemma write_other (w : World) (part p : Part) (shape : Shape) :
  p <> part -> shape_of (write w part shape) p = shape_of w p.
Proof. intros H. cbn. apply Pos.eqb_neq in H. now rewrite H. Qed.

Lemma write_history (w : World) (part : Part) (shape : Shape) :
  history (write w part shape) = history w ++ [EvSetShape part shape].
Proof. reflexivity. Qed.

(** The test on the kinds of the parts changes nothing. *)
Definition check_parts (parts : list Part) : M unit :=
  for_each parts (fun _ part =>
    if negb (is_SurfacePart part)
    then raise (TypeError "Part is not a surface part.")
    else ret tt) tt.

Lemma check_parts_ok (parts : list Part) (w : World) :
  forallb is_SurfacePart parts = true ->
  check_parts parts w = (Ok tt, w).
Proof.
  unfold check_parts. induction parts as [|p l IH]; cbn; [reflexivity|].
  intros [Hp Hl]%andb_prop. unfold bind. rewrite Hp. cbn. now apply IH.
Qed.

Lemma check_parts_raise (parts : list Part) (w : World) :
  forallb is_SurfacePart parts = false ->
  check_parts parts w = (Raise (TypeError "Part is not a surface part."), w).
Proof.
  unfold check_parts. induction parts as [|p l IH]; cbn; [discriminate|].
  unfold bind. destruct (is_SurfacePart p); cbn; [exact IH|reflexivity].
Qed.

(** *** [FuseAssemblies] and [FuseSurfacePartsByCref] on short input *)

(** C9. [FuseAssemblies] on fewer than two assemblies raises
    [ValueError] and leaves the world as it was: no compound, no
    Boolean operation, no shape written. *)
Theorem fuse_assemblies_too_few (assys : list Assembly) (fuzzy_val : option D)
  (include_subassy : bool) (w : World) :
  (length assys < 2)%nat ->
  FuseAssemblies assys fuzzy_val include_subassy w =
  (Raise (ValueError "Not enough assemblies to fuse. Need at least two."), w).
Proof.
  intros H. unfold FuseAssemblies.
  replace (Z.of_nat (length assys) <? 2) with true
    by (symmetry; apply Z.ltb_lt; lia).
  reflexivity.
Qed.

(** C10. [FuseSurfacePartsByCref] on fewer than two surface parts
    returns with [is_done] false and leaves the world as it was: no
    pair tested, no fuse, no shape written. *)
Theorem fuse_by_cref_too_few (parts : list Part) (tol : option D) (w : World) :
  (length parts < 2)%nat ->
  forallb is_SurfacePart parts = true ->
  FuseSurfacePartsByCref parts tol w =
  (Ok {| FuseSurfacePartsByCref_is_done := false |}, w).
Proof.
  intros Hlen Hs. unfold FuseSurfacePartsByCref.
  fold (check_parts parts). unfold bind at 1.
  rewrite (check_parts_ok parts w Hs).
  destruct parts as [|p [|q l]]; cbn in Hlen; [reflexivity|reflexivity|lia].
Qed.

(** *** [CutParts] *)

Definition cut_events (shape2 : Shape) (parts : list Part) : list Event :=
  map (fun part => EvCut part shape2) parts.

(** A status is the answer of the part's [cut], on some shapes. *)
Definition answer_of_cut (part : Part) (shape2 : Shape) (status : bool) : Prop :=
  exists shapes, status = fst (part_cut part shape2 shapes).

Lemma cut_loop (shape2 : Shape) (parts : list Part)
  (st : gmap positive bool) (w : World) :
  exists st' w',
    for_each parts (fun _status part =>
      status <- cut part shape2 ;;
      ret (<[part := status]> _status)) st w = (Ok st', w') /\
    history w' = history w ++ cut_events shape2 parts /\
    dom st' = dom st ∪ list_to_set parts /\
    (forall p, p ∉ parts -> st' !! p = st !! p) /\
    (forall p, p ∈ parts ->
       exists status, st' !! p = Some status /\ answer_of_cut p shape2 status).
Proof using Type.
  revert st w. induction parts as [|q l IH]; intros st w; cbn.
  - exists st, w. rewrite app_nil_r.
    split; [reflexivity|]. split; [reflexivity|].
    split; [now rewrite (right_id_L ∅ (∪))|].
    split; [reflexivity|]. intros p Hp. now apply elem_of_nil in Hp.
  - unfold bind at 1. unfold bind at 1. unfold cut at 1.
    destruct (part_cut q shape2 (shape_of w)) as [status shapes] eqn:E. cbn.
    destruct (IH (<[q:=status]> st)
                {| shape_of := shapes; history := history w ++ [EvCut q shape2] |})
      as (st' & w' & -> & Hh & Hd & Hout & Hin).
    exists st', w'. split; [reflexivity|].
    split; [rewrite Hh; cbn; now rewrite <- app_assoc|].
    split.
    { rewrite Hd, dom_insert_L.
      now rewrite (comm_L (∪) {[q]} (dom st)), <- (assoc_L (∪)). }
    split.
    + intros p Hp. apply not_elem_of_cons in Hp as [Hne Hp].
      rewrite (Hout p Hp). now apply lookup_insert_ne.
    + intros p Hp. destruct (decide (p ∈ l)) as [Hl|Hl]; [now apply Hin|].
      apply elem_of_cons in Hp as [->|Hp]; [|contradiction].
      exists status. rewrite (Hout q Hl).
      split; [apply lookup_insert_eq|].
      exists (shape_of w). now rewrite E.
Qed.

Lemma for_each_app {A S} (l1 l2 : list A) (body : S -> A -> M S) (s : S)
  (w : World) :
  for_each (l1 ++ l2) body s w =
  match for_each l1 body s w with
  | (Ok s', w') => for_each l2 body s' w'
  | (Raise e, w') => (Raise e, w')
  end.
Proof.
  revert s w. induction l1 as [|x l1 IH]; intros s w; [reflexivity|].
  cbn [app]. rewrite !for_each_cons. unfold bind.
  destruct (body s x w) as [[s'|e] w']; [apply IH|reflexivity].
Qed.

(** The shapes after the cuts of the parts, in order. *)
Fixpoint shapes_after_cuts (shape2 : Shape) (parts : list Part)
  (shapes : Part -> Shape) : Part -> Shape :=
  match parts with
  | [] => shapes
  | part :: parts' =>
      shapes_after_cuts shape2 parts' (snd (part_cut part shape2 shapes))
  end.

(** The body of the loop of [CutParts]. *)
Definition cut_body (shape2 : Shape) (_status : gmap positive bool)
  (part : Part) : M (gmap positive bool) :=
  status <- cut part shape2 ;;
  ret (<[part := status]> _status).

Lemma cut_step (shape2 : Shape) (st : gmap positive bool) (part : Part)
  (w : World) :
  cut_body shape2 st part w =
  (Ok (<[part := fst (part_cut part shape2 (shape_of w))]> st),
   {| shape_of := snd (part_cut part shape2 (shape_of w));
      history := history w ++ [EvCut part shape2] |}).
Proof.
  unfold cut_body, bind, cut, ret.
  now destruct (part_cut part shape2 (shape_of w)).
Qed.

Lemma cut_loop_shapes (shape2 : Shape) (parts : list Part)
  (st st' : gmap positive bool) (w w' : World) :
  for_each parts (cut_body shape2) st w = (Ok st', w') ->
  shape_of w' = shapes_after_cuts shape2 parts (shape_of w).
Proof.
  revert st w. induction parts as [|q l IH]; intros st w.
  - now intros [= _ <-].
  - rewrite for_each_cons, (bind_ok _ _ _ _ _ (cut_step shape2 st q w)).
    intros H. now apply IH in H.
Qed.

(** The statuses that the loop of [CutParts] leaves: that of a part
    is the answer of its last cut, on the shapes of that moment. *)
Lemma cut_loop_last (shape2 : Shape) (pre : list Part) (p : Part)
  (post : list Part) (st st' : gmap positive bool) (w w' : World) :
  p ∉ post ->
  for_each (pre ++ p :: post) (cut_body shape2) st w = (Ok st', w') ->
  st' !! p =
  Some (fst (part_cut p shape2 (shapes_after_cuts shape2 pre (shape_of w)))).
Proof using Type.
  intros Hp. rewrite for_each_app.
  destruct (cut_loop shape2 pre st w) as (st1 & w1 & E1 & _).
  fold (cut_body shape2) in E1. rewrite E1, for_each_cons.
  rewrite (bind_ok _ _ _ _ _ (cut_step shape2 st1 p w1)).
  destruct (cut_loop shape2 post
              (<[p := fst (part_cut p shape2 (shape_of w1))]> st1)
              {| shape_of := snd (part_cut p shape2 (shape_of w1));
                 history := history w1 ++ [EvCut p shape2] |})
    as (st2 & w2 & E2 & _ & _ & Hout & _).
  fold (cut_body shape2) in E2. rewrite E2. intros [= <- _].
  rewrite (Hout p Hp), lookup_insert_eq.
  now rewrite (cut_loop_shapes _ _ _ _ _ _ E1).
Qed.

(** The last occurrence of an element of a list. *)
Lemma last_occurrence (p : Part) (parts : list Part) :
  p ∈ parts -> exists pre post, parts = pre ++ p :: post /\ p ∉ post.
Proof using Type.
  induction parts as [|q l IH]; intros Hp; [now apply elem_of_nil in Hp|].
  destruct (decide (p ∈ l)) as [Hl|Hl].
  - destruct (IH Hl) as (pre & post & -> & Hpost).
    now exists (q :: pre), post.
  - apply elem_of_cons in Hp as [->|Hp]; [|contradiction].
    now exists [], l.
Qed.

(** C3. [CutParts] never raises.  It calls [cut] on every part of the
    group, in the order of the group, whatever the earlier cuts
    answered: the shapes after the call are those that these cuts leave
    one after the other.  Its status mapping has an entry for exactly
    the parts of the group, and the status of a part is the Boolean that
    its cut answered (the last one, if the part is several times in the
    group) on the shapes that the cuts before it had left.  [was_cut] of
    a part outside the group raises [KeyError]. *)
Theorem cut_parts_outcome (parts : list Part) (shape : Shape) (w : World) :
  exists obj w',
    CutParts parts shape w = (Ok obj, w') /\
    history w' = history w ++ cut_events (to_shape shape) parts /\
    shape_of w' = shapes_after_cuts (to_shape shape) parts (shape_of w) /\
    dom (_status obj) = list_to_set parts /\
    (forall p, p ∈ parts ->
       exists pre post, parts = pre ++ p :: post /\ p ∉ post) /\
    (forall pre p post, parts = pre ++ p :: post -> p ∉ post ->
       was_cut obj p =
       Ok (fst (part_cut p (to_shape shape)
                  (shapes_after_cuts (to_shape shape) pre (shape_of w))))) /\
    (forall p, p ∉ parts -> was_cut obj p = Raise (KeyError p)).
Proof using Type.
  unfold CutParts. cbv zeta. fold (cut_body (to_shape shape)).
  set (shape2 := to_shape shape).
  destruct (cut_loop shape2 parts ∅ w) as (st' & w' & E & Hh & Hd & Hout & _).
  fold (cut_body shape2) in E.
  exists {| _status := st' |}, w'. rewrite (bind_ok _ _ _ _ _ E).
  split; [reflexivity|]. split; [exact Hh|].
  split; [apply (cut_loop_shapes _ _ _ _ _ _ E)|].
  split; [cbn [_status]; rewrite Hd, dom_empty_L;
          now rewrite (left_id_L ∅ (∪))|].
  split; [intros p; apply last_occurrence|].
  unfold was_cut. cbn [_status]. split.
  - intros pre p post -> Hp.
    now rewrite (cut_loop_last shape2 pre p post ∅ st' w w' Hp E).
  - intros p Hp. now rewrite (Hout p Hp), lookup_empty.
Qed.


(** *** [SewSurfaceParts] *)

Lemma sew_tool_inv (parts : list Part) (tol max_tol : option D) (w : World)
  (sew : SewTool) (w1 : World) :
  sew_tool parts tol max_tol w = (Ok sew, w1) ->
  w1 = add_history w [EvSew (map (shape_of w) parts)].
Proof.
  unfold sew_tool, bind, shapes_of, lift, ret, emit. cbn.
  destruct max_tol as [m|]; cbn.
  - now intros [= _ <-].
  - destruct (pymax_list _) as [m|e]; cbn; [|discriminate].
    now intros [= _ <-].
Qed.

(** The body of the loop of [SewSurfaceParts]. *)
Definition sew_body (sew : SewTool) (_ : unit) (part : Part) : M unit :=
  shape <- get_shape part ;;
  if negb (is_modified sew shape) then ret tt
  else
    shape <- get_shape part ;;
    let mod_shape := modified sew shape in
    set_shape part mod_shape.

Lemma sew_step (sew : SewTool) (part : Part) (w : World) :
  sew_body sew tt part w =
  (Ok tt, if is_modified sew (shape_of w part)
          then write w part (modified sew (shape_of w part))
          else w).
Proof.
  unfold sew_body, bind, get_shape, set_shape, ret.
  now destruct (is_modified sew (shape_of w part)).
Qed.

Lemma sew_loop (sew : SewTool) (parts : list Part) (w : World) :
  exists w' evs,
    for_each parts (sew_body sew) tt w = (Ok tt, w') /\
    history w' = history w ++ evs /\
    forall p, is_modified sew (shape_of w p) = false ->
      shape_of w' p = shape_of w p /\ forall s, EvSetShape p s ∉ evs.
Proof.
  revert w. induction parts as [|q l IH]; intros w.
  - exists w, []. cbn. rewrite app_nil_r. repeat split; try reflexivity.
    intros s Hs. now apply elem_of_nil in Hs.
  - rewrite for_each_cons, (bind_ok _ _ _ _ _ (sew_step sew q w)).
    destruct (is_modified sew (shape_of w q)) eqn:E.
    + destruct (IH (write w q (modified sew (shape_of w q))))
        as (w' & evs & -> & Hh & Hp).
      exists w', (EvSetShape q (modified sew (shape_of w q)) :: evs).
      split; [reflexivity|].
      split; [rewrite Hh, write_history; now rewrite <- app_assoc|].
      intros p Hu.
      assert (p <> q) as Hne by (intros ->; congruence).
      specialize (Hp p). rewrite (write_other _ _ _ _ Hne) in Hp.
      destruct (Hp Hu) as [Hs Hno].
      split; [exact Hs|].
      intros s [Hin|Hin]%elem_of_cons; [congruence|]. now apply (Hno s).
    + destruct (IH w) as (w' & evs & -> & Hh & Hp).
      now exists w', evs.
Qed.

(** C8. In [SewSurfaceParts], a part whose shape the sewing tool reports
    as unmodified is never passed to [set_shape] and ends with the
    shape object it had; the parts that are written are parts whose
    shape the tool reports as modified. *)
Theorem sew_unmodified_untouched (parts : list Part) (tol max_tol : option D)
  (w : World) (sew : SewTool) (w1 : World) :
  sew_tool parts tol max_tol w = (Ok sew, w1) ->
  exists w' evs,
    SewSurfaceParts parts tol max_tol w = (Ok tt, w') /\
    history w' = history w1 ++ evs /\
    (forall p, is_modified sew (shape_of w p) = false ->
       shape_of w' p = shape_of w p /\ forall s, EvSetShape p s ∉ evs) /\
    (forall p s, EvSetShape p s ∈ evs -> is_modified sew (shape_of w p) = true).
Proof.
  intros Ht. unfold SewSurfaceParts. rewrite (bind_ok _ _ _ _ _ Ht).
  fold (sew_body sew).
  apply sew_tool_inv in Ht as ->.
  destruct (sew_loop sew parts (add_history w [EvSew (map (shape_of w) parts)]))
    as (w' & evs & -> & Hh & Hp).
  exists w', evs. split; [reflexivity|]. split; [exact Hh|].
  split; [exact Hp|].
  intros p s Hin. destruct (is_modified sew (shape_of w p)) eqn:E; [reflexivity|].
  destruct (Hp p E) as [_ Hno]. now destruct (Hno s).
Qed.

(** *** The rebuild loop of the three Boolean operations *)

(** The resolver answers for the shape of every part of the list. *)
Definition resolves (rebuild : Rebuild) (parts : list Part) (w : World) : Prop :=
  forall p, p ∈ parts -> exists s, new_shape rebuild (shape_of w p) = Ok s.

(** From [w] to [w']: the events [before], then one write per part of
    the list, each with the answer of the resolver for the shape the
    part had; the other parts keep their shape. *)
Definition rebuilt (rebuild : Rebuild) (parts : list Part) (before : list Event)
  (w w' : World) : Prop :=
  history w' = history w ++ before ++
               map (fun p => EvSetShape p (shape_of w' p)) parts /\
  (forall p, p ∈ parts -> new_shape rebuild (shape_of w p) = Ok (shape_of w' p)) /\
  (forall p, p ∉ parts -> shape_of w' p = shape_of w p).

(** The body of [rebuild_parts]. *)
Definition rebuild_body (rebuild : Rebuild) (_ : unit) (part : Part) : M unit :=
  old <- get_shape part ;;
  new <- lift (new_shape rebuild old) ;;
  set_shape part new.

Lemma rebuild_step (rebuild : Rebuild) (part : Part) (w : World) (s : Shape) :
  new_shape rebuild (shape_of w part) = Ok s ->
  rebuild_body rebuild tt part w = (Ok tt, write w part s).
Proof.
  intros H. unfold rebuild_body, bind, get_shape, lift, set_shape.
  now rewrite H.
Qed.

Lemma rebuild_loop (rebuild : Rebuild) (parts : list Part) (w : World) :
  NoDup parts -> resolves rebuild parts w ->
  exists w', rebuild_parts rebuild parts w = (Ok tt, w') /\
             rebuilt rebuild parts [] w w'.
Proof.
  unfold rebuild_parts, rebuilt, resolves. fold (rebuild_body rebuild).
  revert w. induction parts as [|q l IH]; intros w Hnd Hres.
  - exists w. cbn. rewrite app_nil_r. repeat split; try reflexivity.
    intros p Hp. now apply elem_of_nil in Hp.
  - apply NoDup_cons in Hnd as [Hq Hnd].
    destruct (Hres q) as [s Hs]; [now left|].
    rewrite for_each_cons, (bind_ok _ _ _ _ _ (rebuild_step rebuild q w s Hs)).
    assert (Hsame : forall p, p ∈ l -> shape_of (write w q s) p = shape_of w p).
    { intros p Hp. apply write_other. intros ->. contradiction. }
    destruct (IH (write w q s) Hnd) as (w' & -> & Hh & Hin & Hout).
    { intros p Hp. rewrite (Hsame p Hp). apply Hres. now right. }
    assert (Hq' : shape_of w' q = s).
    { rewrite (Hout q Hq). apply write_same. }
    exists w'. split; [reflexivity|]. split; [|split].
    + rewrite Hh, write_history. cbn. rewrite Hq'. now rewrite <- app_assoc.
    + intros p [->|Hp]%elem_of_cons.
      * now rewrite Hq'.
      * rewrite <- (Hsame p Hp). now apply Hin.
    + intros p Hp. apply not_elem_of_cons in Hp as [Hne Hp].
      rewrite (Hout p Hp). now apply write_other.
Qed.

Lemma rebuilt_after (rebuild : Rebuild) (parts : list Part) (before : list Event)
  (w w' : World) :
  rebuilt rebuild parts [] (add_history w before) w' ->
  rebuilt rebuild parts before w w'.
Proof.
  unfold rebuilt. cbn. intros (Hh & Hin & Hout).
  split; [|now split]. rewrite Hh. now rewrite <- app_assoc.
Qed.


Lemma rebuild_loop_after (rebuild : Rebuild) (parts : list Part)
  (before : list Event) (w : World) :
  NoDup parts -> resolves rebuild parts w ->
  exists w', rebuild_parts rebuild parts (add_history w before) = (Ok tt, w') /\
             rebuilt rebuild parts before w w'.
Proof.
  intros Hnd Hres.
  destruct (rebuild_loop rebuild parts (add_history w before) Hnd Hres)
    as (w' & E & Hr).
  exists w'. split; [exact E|]. now apply rebuilt_after.
Qed.

(** The compounds of the assemblies after the first one. *)
Definition assy_shapes (include_subassy : bool) (w : World) (assy : Assembly)
  : list Shape :=
  map (shape_of w) (get_parts assy include_subassy).

Definition compounds (include_subassy : bool) (w : World) (assys : list Assembly)
  : list Shape :=
  map (fun assy => CompoundByShapes (assy_shapes include_subassy w assy)) assys.

Definition parts_of (include_subassy : bool) (assys : list Assembly) : list Part :=
  flat_map (fun assy => get_parts assy include_subassy) assys.

Definition compound_events (include_subassy : bool) (w : World)
  (assys : list Assembly) : list Event :=
  map (fun assy => EvCompound (assy_shapes include_subassy w assy)) assys.

Definition compound_body (include_subassy : bool)
  : list Shape * list Part -> Assembly -> M (list Shape * list Part) :=
  fun '(tools, other_parts) assy =>
  let parts := get_parts assy include_subassy in
  let other_parts := other_parts ++ parts in
  shapes <- shapes_of parts ;;
  emit (EvCompound shapes) ;;;
  let shape := CompoundByShapes shapes in
  ret (tools ++ [shape], other_parts).

Lemma compound_step (include_subassy : bool) (assy : Assembly)
  (tools : list Shape) (other_parts : list Part) (w : World) (evs : list Event) :
  compound_body include_subassy (tools, other_parts) assy (add_history w evs) =
  (Ok (tools ++ [CompoundByShapes (assy_shapes include_subassy w assy)],
       other_parts ++ get_parts assy include_subassy),
   add_history w (evs ++ [EvCompound (assy_shapes include_subassy w assy)])).
Proof.
  unfold compound_body, bind, shapes_of, emit, ret. cbn.
  now rewrite add_history_app.
Qed.

Lemma compound_loop (include_subassy : bool) (assys : list Assembly)
  (tools : list Shape) (other_parts : list Part) (w : World) (evs : list Event) :
  for_each assys (compound_body include_subassy) (tools, other_parts)
    (add_history w evs) =
  (Ok (tools ++ compounds include_subassy w assys,
       other_parts ++ parts_of include_subassy assys),
   add_history w (evs ++ compound_events include_subassy w assys)).
Proof.
  revert tools other_parts evs.
  induction assys as [|a l IH]; intros tools other_parts evs.
  - cbn. now rewrite !app_nil_r.
  - rewrite for_each_cons,
      (bind_ok _ _ _ _ _ (compound_step include_subassy a tools other_parts w evs)).
    rewrite IH. cbn. now rewrite <- !app_assoc.
Qed.

(** X19. When every part is given once and the resolver answers for
    each, [FuseSurfaceParts], [SplitParts] and [FuseAssemblies] return;
    the history is the build followed by one write per part, every
    part ends with the resolver's answer for the shape it had, the
    other parts keep their shape, and [is_done] is the tool's. *)
Theorem rebuilt_when_resolved :
  (forall (parts tools : list Part) (fuzzy_val : option D) (w : World),
     let args := map (shape_of w) parts in
     let shapes := map (shape_of w) tools in
     let bop := FuseShapes fuzzy_val args shapes in
     let rebuild := RebuildShapesByTool (args ++ shapes) bop in
     NoDup (parts ++ tools) -> resolves rebuild (parts ++ tools) w ->
     exists w',
       FuseSurfaceParts parts tools fuzzy_val w =
       (Ok {| FuseSurfaceParts_is_done := is_done bop;
              FuseSurfaceParts_fused_shape := shape bop |}, w') /\
       rebuilt rebuild (parts ++ tools) [EvBuild args shapes] w w') /\
  (forall (parts : list Part) (tools : option (list Part))
          (fuzzy_val : option D) (w : World),
     let args := map (shape_of w) parts in
     let shapes := map (shape_of w) <$> tools in
     let bop := SplitShapes fuzzy_val args shapes in
     let rebuild := RebuildShapesByTool args bop in
     NoDup parts -> resolves rebuild parts w ->
     exists w',
       SplitParts parts tools fuzzy_val w =
       (Ok {| SplitParts_is_done := is_done bop;
              SplitParts_split_shape := shape bop |}, w') /\
       rebuilt rebuild parts [EvBuild args (default [] shapes)] w w') /\
  (forall (assy0 assy1 : Assembly) (assys : list Assembly)
          (fuzzy_val : option D) (include_subassy : bool) (w : World),
     let parts1 := get_parts assy0 include_subassy in
     let shape1 := CompoundByShapes (map (shape_of w) parts1) in
     let tools := compounds include_subassy w (assy1 :: assys) in
     let all_parts := parts1 ++ parts_of include_subassy (assy1 :: assys) in
     let bop := FuseShapes fuzzy_val [shape1] tools in
     let rebuild := RebuildShapesByTool (map (shape_of w) all_parts) bop in
     NoDup all_parts -> resolves rebuild all_parts w ->
     exists w',
       FuseAssemblies (assy0 :: assy1 :: assys) fuzzy_val include_subassy w =
       (Ok {| _bop := bop |}, w') /\
       rebuilt rebuild all_parts
         (EvCompound (map (shape_of w) parts1) ::
          compound_events include_subassy w (assy1 :: assys) ++
          [EvBuild [shape1] tools]) w w').
Proof.
  split; [|split].
  - intros parts tools fuzzy_val w args shapes bop rebuild Hnd Hres.
    destruct (rebuild_loop_after rebuild (parts ++ tools)
                [EvBuild args shapes] w Hnd Hres) as (w' & E & Hr).
    exists w'. split; [|exact Hr].
    unfold FuseSurfaceParts, bind, shapes_of, emit. cbn.
    fold args shapes bop rebuild. now rewrite E.
  - intros parts tools fuzzy_val w args shapes bop rebuild Hnd Hres.
    destruct (rebuild_loop_after rebuild parts
                [EvBuild args (default [] shapes)] w Hnd Hres) as (w' & E & Hr).
    exists w'. split; [|exact Hr].
    unfold SplitParts, bind, shapes_of, emit.
    destruct tools as [tools|]; cbn; fold args; cbn in *;
      fold bop rebuild; now rewrite E.
  - intros assy0 assy1 assys fuzzy_val include_subassy w parts1 shape1 tools
      all_parts bop rebuild Hnd Hres.
    set (before := EvCompound (map (shape_of w) parts1) ::
                   compound_events include_subassy w (assy1 :: assys) ++
                   [EvBuild [shape1] tools]).
    destruct (rebuild_loop_after rebuild all_parts before w Hnd Hres)
      as (w' & E & Hr).
    exists w'. split; [|exact Hr].
    unfold FuseAssemblies.
    replace (Z.of_nat (length (assy0 :: assy1 :: assys)) <? 2) with false
      by (symmetry; apply Z.ltb_ge; cbn [length]; lia).
    rewrite (bind_ok _ _ w w assy0)
      by (unfold lift; now rewrite getitem_0).
    fold parts1.
    rewrite (bind_ok _ _ _ w _ (eq_refl : shapes_of parts1 w = (Ok _, w))).
    rewrite (bind_ok _ _ _ _ _ (eq_refl : emit _ w = (Ok tt, add_history w _))).
    fold shape1.
    match goal with
    | |- bind (for_each _ ?f _) _ _ = _ =>
        change f with (compound_body include_subassy)
    end.
    change (drop 1 (assy0 :: assy1 :: assys)) with (assy1 :: assys).
    rewrite (bind_ok _ _ _ _ _ (compound_loop include_subassy (assy1 :: assys)
                                  [] [] w _)).
    cbn [app]. fold tools.
    rewrite (bind_ok _ _ _ _ _
               (eq_refl : emit _ (add_history w _) = (Ok tt, _))).
    rewrite add_history_app.
    fold all_parts.
    rewrite (bind_ok _ _ _ _ _
               (eq_refl : shapes_of all_parts (add_history w _) = (Ok _, _))).
    cbn [shape_of add_history]. fold bop rebuild.
    change ((EvCompound (map (shape_of w) parts1) ::
             compound_events include_subassy w (assy1 :: assys)) ++
            [EvBuild [shape1] tools]) with before.
    now rewrite (bind_ok _ _ _ _ _ E).
Qed.


(** *** Adjacency discovery, stated on the sequence of parts *)

(** The tolerance of the test of [main] against [other]. *)
Definition working_tol (tol : option D) (w : World) (main other : Part) : D :=
  match tol with
  | None => pymax (global_tolerance (shape_of w main) 1)
                  (global_tolerance (shape_of w other) 1)
  | Some tol => tol
  end.

(** The pair is tested: both parts have a reference curve. *)
Definition tested (main other : Part) : bool := has_cref main && has_cref other.

(** The edges of the two reference curves meet in at least one vertex. *)
Definition crefs_meet (tol : option D) (w : World) (main other : Part) : bool :=
  match IntersectShapes (EdgeByCurve (cref main)) (EdgeByCurve (cref other))
          (working_tol tol w main other) with
  | [] => false
  | _ :: _ => true
  end.

Definition candidate (tol : option D) (w : World) (main other : Part) : bool :=
  tested main other && crefs_meet tol w main other.

Definition test_event (tol : option D) (w : World) (main other : Part)
  : list Event :=
  if tested main other then [EvIntersect main other (working_tol tol w main other)]
  else [].

(** The candidates of [main] among the parts after it, and the tests
    made for them. *)
Definition candidates (tol : option D) (w : World) (main : Part)
  (rest : list Part) : list Part :=
  List.filter (candidate tol w main) rest.

Definition inner_events (tol : option D) (w : World) (main : Part)
  (rest : list Part) : list Event :=
  flat_map (test_event tol w main) rest.

(** The join groups of a sequence of parts: each part that has
    candidates among the parts after it, with them. *)
Fixpoint groups_of (tol : option D) (w : World) (parts : list Part)
  : list (Part * list Part) :=
  match parts with
  | [] => []
  | main :: rest =>
      match candidates tol w main rest with
      | [] => groups_of tol w rest
      | other_parts => (main, other_parts) :: groups_of tol w rest
      end
  end.

Fixpoint all_tests (tol : option D) (w : World) (parts : list Part)
  : list Event :=
  match parts with
  | [] => []
  | main :: rest => inner_events tol w main rest ++ all_tests tol w rest
  end.

Definition fuse_event (group : Part * list Part) : Event :=
  EvFuse (fst group) (snd group).

(** The world after the fuses of the groups, in order. *)
Definition fuse_all (w : World) (groups : list (Part * list Part)) : World :=
  fold_left (fun w group =>
               {| shape_of := part_fuse (fst group) (snd group) (shape_of w);
                  history := history w ++ [fuse_event group] |}) groups w.

Lemma fuse_all_history (groups : list (Part * list Part)) (w : World) :
  history (fuse_all w groups) = history w ++ map fuse_event groups.
Proof.
  unfold fuse_all. revert w. induction groups as [|g l IH]; intros w; cbn.
  - now rewrite app_nil_r.
  - rewrite IH. cbn. now rewrite <- app_assoc.
Qed.

Lemma test_other_step (tol : option D) (main other : Part)
  (other_parts : list Part) (w : World) (evs : list Event) :
  test_other tol main other other_parts (add_history w evs) =
  (Ok (other_parts ++ candidates tol w main [other]),
   add_history w (evs ++ test_event tol w main other)).
Proof.
  unfold test_other, candidates, candidate, test_event, tested, crefs_meet.
  cbn [List.filter].
  destruct (has_cref main), (has_cref other); cbn [negb orb andb];
    try (unfold ret; now rewrite !app_nil_r).
  assert (Htol : forall k : D -> M (list Part),
            bind match tol with
                 | Some tol0 => ret tol0
                 | None =>
                     shape1 <- get_shape main ;;
                     shape2 <- get_shape other ;;
                     ret (pymax (global_tolerance shape1 1)
                                (global_tolerance shape2 1))
                 end k (add_history w evs) =
            k (working_tol tol w main other) (add_history w evs)).
  { intros k. destruct tol; reflexivity. }
  rewrite Htol. unfold bind, emit. rewrite add_history_app.
  destruct (IntersectShapes _ _ _); unfold ret; now rewrite ?app_nil_r.
Qed.

(** The body of the loop on [j], for one [main]. *)
Definition inner_body (tol : option D) (parts : list Part) (main : Part)
  (other_parts : list Part) (j : Z) : M (list Part) :=
  other <- lift (getitem parts j) ;;
  test_other tol main other other_parts.

Lemma inner_step (tol : option D) (parts : list Part) (main : Part) (w : World)
  (pre : list Part) (x : Part) (post other_parts : list Part) (evs : list Event) :
  parts = pre ++ x :: post ->
  inner_body tol parts main other_parts (Z.of_nat (length pre))
    (add_history w evs) =
  (Ok (other_parts ++ candidates tol w main [x]),
   add_history w (evs ++ test_event tol w main x)).
Proof.
  intros ->. unfold inner_body.
  rewrite (bind_ok _ _ (add_history w evs) (add_history w evs) x)
    by (unfold lift; now rewrite getitem_middle).
  apply test_other_step.
Qed.

Lemma inner_loop (tol : option D) (parts : list Part) (main : Part) (w : World)
  (rest pre other_parts : list Part) (evs : list Event) :
  parts = pre ++ rest ->
  for_each (range (Z.of_nat (length pre)) (Z.of_nat (length parts)))
    (inner_body tol parts main) other_parts (add_history w evs) =
  (Ok (other_parts ++ candidates tol w main rest),
   add_history w (evs ++ inner_events tol w main rest)).
Proof.
  revert pre other_parts evs.
  induction rest as [|x r IH]; intros pre other_parts evs Hparts.
  - rewrite range_nil by (subst parts; rewrite app_nil_r; lia).
    cbn. now rewrite !app_nil_r.
  - rewrite range_cons by (subst parts; rewrite length_app; cbn [length]; lia).
    rewrite for_each_cons.
    rewrite (bind_ok _ _ _ _ _
               (inner_step tol parts main w pre x r other_parts evs Hparts)).
    replace (Z.of_nat (length pre) + 1) with (Z.of_nat (length (pre ++ [x])))
      by (rewrite length_app; cbn [length]; lia).
    rewrite (IH (pre ++ [x])) by (subst parts; now rewrite <- app_assoc).
    unfold candidates, inner_events. cbn [List.filter flat_map].
    f_equal; [f_equal|f_equal]; rewrite <- ?app_assoc; try reflexivity.
    now destruct (candidate tol w main x).
Qed.


(** The body of the loop on [i]. *)
Definition outer_body (tol : option D) (parts : list Part)
  : list Part * list (list Part) -> Z -> M (list Part * list (list Part)) :=
  fun '(main_parts, join_parts) i =>
    main <- lift (getitem parts i) ;;
    other_parts <- for_each (range (i + 1) (Z.of_nat (length parts)))
                     (inner_body tol parts main) [] ;;
    match other_parts with
    | [] => ret (main_parts, join_parts)
    | _ :: _ => ret (main_parts ++ [main], join_parts ++ [other_parts])
    end.

Lemma test_combinations_unfold (parts : list Part) (tol : option D) :
  test_combinations parts tol =
  for_each (range 0 (Z.of_nat (length parts) - 1)) (outer_body tol parts) ([], []).
Proof. reflexivity. Qed.

Lemma outer_step (tol : option D) (parts : list Part) (w : World)
  (pre : list Part) (x : Part) (post : list Part)
  (main_parts : list Part) (join_parts : list (list Part)) (evs : list Event) :
  parts = pre ++ x :: post ->
  outer_body tol parts (main_parts, join_parts) (Z.of_nat (length pre))
    (add_history w evs) =
  (Ok match candidates tol w x post with
      | [] => (main_parts, join_parts)
      | other_parts => (main_parts ++ [x], join_parts ++ [other_parts])
      end,
   add_history w (evs ++ inner_events tol w x post)).
Proof.
  intros Hparts. unfold outer_body.
  rewrite (bind_ok _ _ (add_history w evs) (add_history w evs) x)
    by (unfold lift; subst parts; now rewrite getitem_middle).
  replace (Z.of_nat (length pre) + 1) with (Z.of_nat (length (pre ++ [x])))
    by (rewrite length_app; cbn [length]; lia).
  rewrite (bind_ok _ _ _ _ _
             (inner_loop tol parts x w post (pre ++ [x]) [] evs
                ltac:(subst parts; now rewrite <- app_assoc))).
  cbn [app]. now destruct (candidates tol w x post).
Qed.

Lemma outer_loop (tol : option D) (parts : list Part) (w : World)
  (rest pre main_parts : list Part) (join_parts : list (list Part))
  (evs : list Event) :
  parts = pre ++ rest ->
  for_each (range (Z.of_nat (length pre)) (Z.of_nat (length parts) - 1))
    (outer_body tol parts) (main_parts, join_parts) (add_history w evs) =
  (Ok (main_parts ++ map fst (groups_of tol w rest),
       join_parts ++ map snd (groups_of tol w rest)),
   add_history w (evs ++ all_tests tol w rest)).
Proof.
  revert pre main_parts join_parts evs.
  induction rest as [|x r IH]; intros pre main_parts join_parts evs Hparts.
  - rewrite range_nil by (subst parts; rewrite app_nil_r; lia).
    cbn. now rewrite !app_nil_r.
  - destruct r as [|y r'].
    + rewrite range_nil
        by (subst parts; rewrite length_app; cbn [length]; lia).
      cbn. now rewrite !app_nil_r.
    + rewrite range_cons
        by (subst parts; rewrite length_app; cbn [length]; lia).
      rewrite for_each_cons.
      rewrite (bind_ok _ _ _ _ _
                 (outer_step tol parts w pre x (y :: r') main_parts join_parts
                    evs Hparts)).
      replace (Z.of_nat (length pre) + 1) with (Z.of_nat (length (pre ++ [x])))
        by (rewrite length_app; cbn [length]; lia).
      assert (Hparts' : parts = (pre ++ [x]) ++ y :: r')
        by (subst parts; now rewrite <- app_assoc).
      cbn [groups_of all_tests].
      destruct (candidates tol w x (y :: r')) as [|c cs];
        rewrite (IH _ _ _ _ Hparts'); cbn [map fst snd];
        now rewrite <- !app_assoc.
Qed.

Lemma join_loop (groups : list (Part * list Part)) (done0 : bool) (w : World) :
  join_the_parts groups done0 w =
  (Ok match groups with [] => done0 | _ :: _ => true end, fuse_all w groups).
Proof.
  unfold join_the_parts, fuse_all.
  revert done0 w. induction groups as [|[main other_parts] l IH]; intros done0 w.
  - reflexivity.
  - rewrite for_each_cons.
    rewrite (bind_ok _ _ w
               {| shape_of := part_fuse main other_parts (shape_of w);
                  history := history w ++ [EvFuse main other_parts] |} true)
      by reflexivity.
    rewrite IH. cbn. now destruct l.
Qed.

(** What [FuseSurfacePartsByCref] does on surface parts. *)
Lemma fuse_by_cref_run (parts : list Part) (tol : option D) (w : World) :
  forallb is_SurfacePart parts = true ->
  FuseSurfacePartsByCref parts tol w =
  (Ok {| FuseSurfacePartsByCref_is_done :=
           match groups_of tol w parts with [] => false | _ :: _ => true end |},
   fuse_all (add_history w (all_tests tol w parts)) (groups_of tol w parts)).
Proof.
  intros Hs. unfold FuseSurfacePartsByCref. cbv zeta.
  fold (check_parts parts).
  rewrite (bind_ok _ _ _ _ _ (check_parts_ok parts w Hs)).
  rewrite test_combinations_unfold.
  pose proof (outer_loop tol parts w parts [] [] [] [] eq_refl) as Hl.
  rewrite add_history_nil in Hl. cbn [length app] in Hl.
  change (Z.of_nat 0) with 0 in Hl.
  rewrite (bind_ok _ _ _ _ _ Hl).
  rewrite zip_fst_snd.
  now rewrite (bind_ok _ _ _ _ _ (join_loop _ false _)).
Qed.


(** The tests and the groups, by the indices of the parts. *)

Lemma inner_events_elem (tol : option D) (w : World) (main : Part)
  (rest : list Part) (e : Event) :
  e ∈ inner_events tol w main rest <->
  exists j other, rest !! j = Some other /\ tested main other = true /\
                  e = EvIntersect main other (working_tol tol w main other).
Proof.
  unfold inner_events. induction rest as [|x r IH]; cbn [flat_map].
  - split; [intros H; now apply elem_of_nil in H|].
    intros (j & o & H & _). now rewrite lookup_nil in H.
  - rewrite elem_of_app, IH. unfold test_event at 1. split.
    + intros [H|(j & o & Hj & Ht & ->)].
      * destruct (tested main x) eqn:E; [|now apply elem_of_nil in H].
        apply list_elem_of_singleton in H as ->. now exists 0%nat, x.
      * now exists (S j), o.
    + intros ([|j] & o & Hj & Ht & ->); cbn in Hj.
      * injection Hj as ->. left. rewrite Ht. now apply list_elem_of_singleton.
      * right. now exists j, o.
Qed.

Lemma all_tests_elem (tol : option D) (w : World) (parts : list Part) (e : Event) :
  e ∈ all_tests tol w parts <->
  exists i j main other,
    (i < j)%nat /\ parts !! i = Some main /\ parts !! j = Some other /\
    tested main other = true /\
    e = EvIntersect main other (working_tol tol w main other).
Proof.
  induction parts as [|x r IH]; cbn [all_tests].
  - split; [intros H; now apply elem_of_nil in H|].
    intros (i & j & m & o & _ & H & _). now rewrite lookup_nil in H.
  - rewrite elem_of_app, IH, inner_events_elem. split.
    + intros [(j & o & Hj & Ht & ->)|(i & j & m & o & Hij & Hi & Hj & Ht & ->)].
      * exists 0%nat, (S j), x, o. repeat split; try assumption. lia.
      * exists (S i), (S j), m, o. repeat split; try assumption. lia.
    + intros (i & j & m & o & Hij & Hi & Hj & Ht & ->).
      destruct j as [|j]; [lia|]. cbn in Hj. destruct i as [|i]; cbn in Hi.
      * injection Hi as ->. left. now exists j, o.
      * right. exists i, j, m, o. repeat split; try assumption. lia.
Qed.

Lemma groups_of_elem (tol : option D) (w : World) (parts : list Part)
  (main : Part) (other_parts : list Part) :
  (main, other_parts) ∈ groups_of tol w parts <->
  exists i, parts !! i = Some main /\
            other_parts = candidates tol w main (drop (S i) parts) /\
            other_parts <> [].
Proof.
  induction parts as [|x r IH]; cbn [groups_of].
  - split; [intros H; now apply elem_of_nil in H|].
    intros (i & H & _). now rewrite lookup_nil in H.
  - assert (Hhead : (main, other_parts) ∈
                      match candidates tol w x r with
                      | [] => groups_of tol w r
                      | c :: cs => (x, c :: cs) :: groups_of tol w r
                      end <->
                    (main = x /\ other_parts = candidates tol w x r /\
                     other_parts <> []) \/
                    (main, other_parts) ∈ groups_of tol w r).
    { destruct (candidates tol w x r) as [|c cs].
      - split; [now right|]. intros [(_ & -> & H)|H]; [contradiction|exact H].
      - rewrite elem_of_cons. split.
        + intros [[= -> ->]|H]; [left|now right]. now repeat split.
        + intros [(-> & -> & _)|H]; [now left|now right]. }
    rewrite Hhead, IH. split.
    + intros [(-> & -> & Hne)|(i & Hi & Ho & Hne)].
      * now exists 0%nat.
      * now exists (S i).
    + intros ([|i] & Hi & Ho & Hne); cbn in Hi.
      * injection Hi as ->. left. now repeat split.
      * right. now exists i.
Qed.

(** C6. On surface parts, [FuseSurfacePartsByCref] tests the pairs of
    parts with outer index below inner index whose two parts have a
    reference curve, and no other; the groups it fuses are, in order,
    each part that has candidates among the parts after it, with them,
    a candidate being a tested part whose reference-curve edge meets
    the one of the main part in at least one vertex; [is_done] is true
    exactly when some part has such a candidate. For three parts of
    which only the first two are candidates of one another, the one
    group is the first part with the second. *)
Theorem adjacency_discovery (parts : list Part) (tol : option D) (w : World) :
  forallb is_SurfacePart parts = true ->
  exists obj w',
    FuseSurfacePartsByCref parts tol w = (Ok obj, w') /\
    history w' = history w ++ all_tests tol w parts ++
                 map fuse_event (groups_of tol w parts) /\
    (forall e, e ∈ all_tests tol w parts <->
       exists i j main other,
         (i < j)%nat /\ parts !! i = Some main /\ parts !! j = Some other /\
         has_cref main = true /\ has_cref other = true /\
         e = EvIntersect main other (working_tol tol w main other)) /\
    (forall main other_parts, (main, other_parts) ∈ groups_of tol w parts <->
       exists i, parts !! i = Some main /\
                 other_parts = candidates tol w main (drop (S i) parts) /\
                 other_parts <> []) /\
    (FuseSurfacePartsByCref_is_done obj = true <->
       exists i main, parts !! i = Some main /\
                      candidates tol w main (drop (S i) parts) <> []) /\
    (forall A B C, parts = [A; B; C] ->
       candidate tol w A B = true -> candidate tol w A C = false ->
       candidate tol w B C = false ->
       groups_of tol w parts = [(A, [B])] /\
       FuseSurfacePartsByCref_is_done obj = true).
Proof.
  intros Hs. eexists. eexists.
  split; [apply (fuse_by_cref_run parts tol w Hs)|].
  split; [rewrite fuse_all_history; cbn; now rewrite <- app_assoc|].
  split.
  { intros e. rewrite all_tests_elem. unfold tested.
    split; intros (i & j & m & o & Hij & Hi & Hj & H); exists i, j, m, o.
    - destruct H as [[H1 H2]%andb_prop ->]. now repeat split.
    - destruct H as (H1 & H2 & ->). rewrite H1, H2. now repeat split. }
  split; [apply groups_of_elem|].
  cbn [FuseSurfacePartsByCref_is_done]. split.
  - split.
    + destruct (groups_of tol w parts) as [|[m o] l] eqn:E; [discriminate|].
      intros _. assert (Hin : (m, o) ∈ groups_of tol w parts)
        by (rewrite E; now left).
      apply groups_of_elem in Hin as (i & Hi & -> & Hne). now exists i, m.
    + intros (i & m & Hi & Hne).
      assert (Hin : (m, candidates tol w m (drop (S i) parts))
                      ∈ groups_of tol w parts)
        by (apply groups_of_elem; now exists i).
      destruct (groups_of tol w parts); [now apply elem_of_nil in Hin|reflexivity].
  - intros A B C -> HAB HAC HBC. cbn. unfold candidates. cbn.
    rewrite HAB, HAC, HBC. now split.
Qed.


Lemma fuse_by_cref_type_error (parts : list Part) (tol : option D) (w : World) :
  forallb is_SurfacePart parts = false ->
  FuseSurfacePartsByCref parts tol w =
  (Raise (TypeError "Part is not a surface part."), w).
Proof.
  intros Hs. unfold FuseSurfacePartsByCref. cbv zeta.
  fold (check_parts parts).
  now rewrite (bind_raise _ _ _ _ _ (check_parts_raise parts w Hs)).
Qed.

Lemma fuse_event_not_intersect (groups : list (Part * list Part))
  (main other : Part) (t : D) :
  EvIntersect main other t ∉ map fuse_event groups.
Proof.
  induction groups as [|g l IH]; cbn.
  - intros H. now apply elem_of_nil in H.
  - intros [H|H]%elem_of_cons; [discriminate|contradiction].
Qed.

Section Tolerance.

(** Python's [<] on floats that are not NaN. *)
Hypothesis ltb_asym : forall x y, ltb x y = true -> ltb y x = false.

Lemma ltb_irrefl (x : D) : ltb x x = false.
Proof.
  destruct (ltb x x) eqn:E; [|reflexivity].
  pose proof (ltb_asym x x E). congruence.
Qed.

Lemma pymax_either (a b : D) : pymax a b = a \/ pymax a b = b.
Proof. unfold pymax. destruct (ltb a b); auto. Qed.

Lemma pymax_not_smaller (a b : D) :
  ltb (pymax a b) a = false /\ ltb (pymax a b) b = false.
Proof.
  unfold pymax. destruct (ltb a b) eqn:E.
  - split; [now apply ltb_asym|apply ltb_irrefl].
  - split; [apply ltb_irrefl|exact E].
Qed.

(** C7. Every test of [FuseSurfacePartsByCref] runs at the tolerance the
    caller gave; when the caller gave none, it runs at the maximum of
    the tolerances of the shapes of the two parts, which is one of the
    two and is smaller than neither. On surface parts, every pair with
    outer index below inner index and two reference curves is tested
    so. *)
Theorem working_tolerance (parts : list Part) (tol : option D) (w : World) :
  exists evs,
    history (snd (FuseSurfacePartsByCref parts tol w)) = history w ++ evs /\
    (forall main other t, EvIntersect main other t ∈ evs ->
       match tol with
       | Some tol => t = tol
       | None =>
           let tol1 := global_tolerance (shape_of w main) 1 in
           let tol2 := global_tolerance (shape_of w other) 1 in
           t = pymax tol1 tol2 /\ (t = tol1 \/ t = tol2) /\
           ltb t tol1 = false /\ ltb t tol2 = false
       end) /\
    (forallb is_SurfacePart parts = true ->
     forall i j main other,
       (i < j)%nat -> parts !! i = Some main -> parts !! j = Some other ->
       has_cref main = true -> has_cref other = true ->
       EvIntersect main other (working_tol tol w main other) ∈ evs).
Proof.
  destruct (forallb is_SurfacePart parts) eqn:Hs.
  - exists (all_tests tol w parts ++ map fuse_event (groups_of tol w parts)).
    rewrite (fuse_by_cref_run parts tol w Hs). cbn [snd].
    split; [rewrite fuse_all_history; cbn; now rewrite <- app_assoc|].
    split.
    + intros main other t [Hin|Hin]%elem_of_app;
        [|now apply fuse_event_not_intersect in Hin].
      apply all_tests_elem in Hin
        as (i & j & m & o & _ & _ & _ & _ & [= -> -> ->]).
      unfold working_tol. destruct tol as [t0|]; [reflexivity|].
      cbv zeta. split; [reflexivity|].
      split; [apply pymax_either|apply pymax_not_smaller].
    + intros _ i j main other Hij Hi Hj Hm Ho.
      apply elem_of_app. left. apply all_tests_elem.
      exists i, j, main, other. unfold tested. rewrite Hm, Ho.
      now repeat split.
  - exists []. rewrite (fuse_by_cref_type_error parts tol w Hs). cbn [snd].
    split; [now rewrite app_nil_r|].
    split; [|discriminate].
    intros main other t H. now apply elem_of_nil in H.
Qed.

End Tolerance.

(** *** More on [FuseSurfacePartsByCref] *)

(** X8. [FuseSurfacePartsByCref] raises [TypeError] exactly when some
    part of the sequence is not a surface part, wherever it stands in
    the sequence, and then nothing was tested, fused or written. *)
Theorem kinds_checked_before_any_test (parts : list Part) (tol : option D)
  (w : World) :
  (exists part, In part parts /\ is_SurfacePart part = false) <->
  FuseSurfacePartsByCref parts tol w =
  (Raise (TypeError "Part is not a surface part."), w).
Proof.
  split.
  - intros (part & Hin & Hp). apply fuse_by_cref_type_error.
    destruct (forallb is_SurfacePart parts) eqn:E; [|reflexivity].
    rewrite forallb_forall in E. rewrite (E part Hin) in Hp. discriminate.
  - intros Hr. destruct (forallb is_SurfacePart parts) eqn:E.
    + rewrite (fuse_by_cref_run parts tol w E) in Hr. discriminate.
    + clear Hr. induction parts as [|p l IH]; [discriminate|].
      cbn in E. destruct (is_SurfacePart p) eqn:Ep.
      * destruct (IH E) as (part & Hin & Hp). exists part. split; [now right|exact Hp].
      * exists p. split; [now left|exact Ep].
Qed.

(** The number of parts that have a reference curve. *)
Definition with_cref (parts : list Part) : nat :=
  length (List.filter has_cref parts).

Lemma inner_events_length (tol : option D) (w : World) (main : Part)
  (rest : list Part) :
  length (inner_events tol w main rest) =
  if has_cref main then with_cref rest else 0%nat.
Proof.
  unfold inner_events, with_cref, test_event, tested.
  induction rest as [|x r IH]; cbn [flat_map List.filter].
  - now destruct (has_cref main).
  - rewrite length_app, IH.
    destruct (has_cref main), (has_cref x); reflexivity.
Qed.

Lemma all_tests_length (tol : option D) (w : World) (parts : list Part) :
  (2 * length (all_tests tol w parts) = with_cref parts * (with_cref parts - 1))%nat.
Proof.
  induction parts as [|x r IH]; [reflexivity|].
  cbn [all_tests]. rewrite length_app, inner_events_length.
  unfold with_cref in *. cbn [List.filter].
  destruct (has_cref x); cbn [length]; nia.
Qed.

Lemma candidates_length (tol : option D) (w : World) (main : Part)
  (rest : list Part) :
  (length (candidates tol w main rest) <=
   if has_cref main then with_cref rest else 0)%nat.
Proof.
  unfold candidates, with_cref, candidate, tested.
  induction rest as [|x r IH]; cbn [List.filter].
  - now destruct (has_cref main).
  - destruct (has_cref main), (has_cref x); cbn [andb] in *;
      try destruct (crefs_meet tol w main x); cbn [length]; lia.
Qed.

Lemma groups_of_length (tol : option D) (w : World) (parts : list Part) :
  (length (groups_of tol w parts) <= with_cref parts - 1)%nat.
Proof.
  induction parts as [|x r IH]; [reflexivity|].
  cbn [groups_of]. pose proof (candidates_length tol w x r) as Hc.
  unfold with_cref in *. cbn [List.filter].
  destruct (candidates tol w x r) as [|c cs];
    destruct (has_cref x); cbn [length] in *; lia.
Qed.

Lemma fuse_all_shapes (groups : list (Part * list Part)) (w : World) :
  shape_of (fuse_all w groups) =
  fold_left (fun shapes group => part_fuse (fst group) (snd group) shapes)
    groups (shape_of w).
Proof.
  unfold fuse_all. revert w. induction groups as [|g l IH]; intros w; cbn.
  - reflexivity.
  - now rewrite IH.
Qed.

(** X9. On surface parts of which fewer than two have a reference
    curve, [FuseSurfacePartsByCref] computes no intersection and fuses
    nothing: it returns [is_done] false and the world it was given. *)
Theorem no_test_without_two_crefs (parts : list Part) (tol : option D)
  (w : World) :
  forallb is_SurfacePart parts = true ->
  (with_cref parts < 2)%nat ->
  FuseSurfacePartsByCref parts tol w =
  (Ok {| FuseSurfacePartsByCref_is_done := false |}, w).
Proof.
  intros Hs Hk. rewrite (fuse_by_cref_run parts tol w Hs).
  pose proof (all_tests_length tol w parts) as Ht.
  pose proof (groups_of_length tol w parts) as Hg.
  destruct (all_tests tol w parts) as [|e l]; [|cbn [length] in Ht; nia].
  destruct (groups_of tol w parts) as [|g l]; [|cbn [length] in Hg; lia].
  cbn. now rewrite add_history_nil.
Qed.

(** X10. On surface parts of which [k] have a reference curve,
    [FuseSurfacePartsByCref] computes [k (k - 1) / 2] intersections,
    all of them before the first fuse, and makes at most [k - 1]
    fuses. *)
Theorem number_of_tests_and_fuses (parts : list Part) (tol : option D)
  (w : World) :
  forallb is_SurfacePart parts = true ->
  exists obj w' tests fuses,
    FuseSurfacePartsByCref parts tol w = (Ok obj, w') /\
    history w' = history w ++ tests ++ fuses /\
    (forall e, e ∈ tests -> exists main other t, e = EvIntersect main other t) /\
    (forall e, e ∈ fuses -> exists main other_parts, e = EvFuse main other_parts) /\
    (2 * length tests = with_cref parts * (with_cref parts - 1))%nat /\
    (length fuses <= with_cref parts - 1)%nat.
Proof.
  intros Hs. eexists. exists (fuse_all (add_history w (all_tests tol w parts))
                                (groups_of tol w parts)).
  exists (all_tests tol w parts), (map fuse_event (groups_of tol w parts)).
  split; [apply (fuse_by_cref_run parts tol w Hs)|].
  split; [rewrite fuse_all_history; cbn; now rewrite <- app_assoc|].
  split; [|split; [|split]].
  - intros e (i & j & m & o & _ & _ & _ & _ & ->)%all_tests_elem.
    now eexists _, _, _.
  - intros e Hin. apply list_elem_of_In, in_map_iff in Hin as (g & <- & _).
    now eexists _, _.
  - apply all_tests_length.
  - rewrite length_map. apply groups_of_length.
Qed.

(** X11. On surface parts, the tests of [FuseSurfacePartsByCref] write
    no shape: the shapes after the call are those that the [fuse] of
    each main part, in the order of the groups, makes of the shapes
    before it, and a call that returns [is_done] false leaves every
    shape as it was and has fused nothing. *)
Theorem shapes_after_fuse_by_cref (parts : list Part) (tol : option D)
  (w : World) :
  forallb is_SurfacePart parts = true ->
  exists obj w',
    FuseSurfacePartsByCref parts tol w = (Ok obj, w') /\
    shape_of w' =
      fold_left (fun shapes group => part_fuse (fst group) (snd group) shapes)
        (groups_of tol w parts) (shape_of w) /\
    (FuseSurfacePartsByCref_is_done obj = false ->
       shape_of w' = shape_of w /\
       history w' = history w ++ all_tests tol w parts).
Proof.
  intros Hs. eexists. eexists.
  split; [apply (fuse_by_cref_run parts tol w Hs)|].
  split; [now rewrite fuse_all_shapes|].
  cbn [FuseSurfacePartsByCref_is_done].
  destruct (groups_of tol w parts); [|discriminate].
  intros _. now split.
Qed.

(** *** More on [CutParts] *)

(** X12. The status that [CutParts] keeps for a part is the answer of
    the last cut of that part, made on the shapes that the cuts before
    it have left; the shapes after the call are those left by the cuts
    of all the parts in order. *)
Theorem status_is_last_cut (pre : list Part) (p : Part) (post : list Part)
  (shape : Shape) (w : World) :
  p ∉ post ->
  exists obj w',
    CutParts (pre ++ p :: post) shape w = (Ok obj, w') /\
    was_cut obj p =
      Ok (fst (part_cut p (to_shape shape)
                 (shapes_after_cuts (to_shape shape) pre (shape_of w)))) /\
    shape_of w' =
      shapes_after_cuts (to_shape shape) (pre ++ p :: post) (shape_of w).
Proof using Type.
  intros Hp. unfold CutParts. cbv zeta. fold (cut_body (to_shape shape)).
  set (shape2 := to_shape shape).
  destruct (cut_loop shape2 pre ∅ w) as (st1 & w1 & E1 & _).
  fold (cut_body shape2) in E1.
  destruct (cut_loop shape2 post
              (<[p := fst (part_cut p shape2 (shape_of w1))]> st1)
              {| shape_of := snd (part_cut p shape2 (shape_of w1));
                 history := history w1 ++ [EvCut p shape2] |})
    as (st2 & w2 & E2 & _ & _ & Hout & _).
  fold (cut_body shape2) in E2.
  assert (E : for_each (pre ++ p :: post) (cut_body shape2) ∅ w = (Ok st2, w2)).
  { rewrite for_each_app, E1, for_each_cons.
    now rewrite (bind_ok _ _ _ _ _ (cut_step shape2 st1 p w1)). }
  exists {| _status := st2 |}, w2.
  rewrite (bind_ok _ _ _ _ _ E).
  split; [reflexivity|]. split.
  - unfold was_cut. cbn [_status]. rewrite (Hout p Hp), lookup_insert_eq.
    now rewrite (cut_loop_shapes _ _ _ _ _ _ E1).
  - apply (cut_loop_shapes _ _ _ _ _ _ E).
Qed.

(** *** More on [SewSurfaceParts] *)

(** The tolerances of the sewing tool of a call. *)
Definition default_tol (tol : option D) (shapes : list Shape) : D :=
  match tol with
  | None => mean (map (fun shape => global_tolerance shape 0) shapes)
  | Some tol => tol
  end.

Definition default_max_tol (max_tol : option D) (shapes : list Shape) : result D :=
  match max_tol with
  | None => pymax_list (map (fun shape => global_tolerance shape 1) shapes)
  | Some max_tol => Ok max_tol
  end.

Lemma sew_tool_run (parts : list Part) (tol max_tol : option D) (w : World) :
  sew_tool parts tol max_tol w =
  match default_max_tol max_tol (map (shape_of w) parts) with
  | Ok m => (Ok (SewShape (default_tol tol (map (shape_of w) parts)) m
                   (map (shape_of w) parts)),
             add_history w [EvSew (map (shape_of w) parts)])
  | Raise e => (Raise e, w)
  end.
Proof.
  unfold sew_tool, default_max_tol, default_tol, bind, shapes_of, lift, ret, emit.
  destruct max_tol as [m|]; [reflexivity|].
  now destruct (pymax_list _).
Qed.

(** X13. [SewSurfaceParts] raises only when it is given no part and no
    maximum tolerance: [max] of the empty list raises [ValueError]
    before anything is sewn or written. On any other input it
    returns. *)
Theorem sew_raises_on_nothing (parts : list Part) (tol max_tol : option D)
  (w : World) :
  (parts = [] /\ max_tol = None ->
   SewSurfaceParts parts tol max_tol w =
   (Raise (ValueError "max() arg is an empty sequence"), w)) /\
  (parts <> [] \/ max_tol <> None ->
   exists w', SewSurfaceParts parts tol max_tol w = (Ok tt, w')).
Proof.
  split.
  - intros [-> ->]. reflexivity.
  - intros H. unfold SewSurfaceParts.
    assert (Ht : exists sew, sew_tool parts tol max_tol w =
                   (Ok sew, add_history w [EvSew (map (shape_of w) parts)])).
    { rewrite sew_tool_run. unfold default_max_tol.
      destruct max_tol as [m|]; [now eexists|].
      destruct parts as [|p l]; [destruct H; congruence|]. now eexists. }
    destruct Ht as [sew Ht]. rewrite (bind_ok _ _ _ _ _ Ht).
    fold (sew_body sew).
    destruct (sew_loop sew parts (add_history w [EvSew (map (shape_of w) parts)]))
      as (w' & evs & E & _).
    now exists w'.
Qed.

Section MaxTolerance.

(** Python's [<] on floats that are not NaN. *)
Hypothesis ltb_asym : forall x y, ltb x y = true -> ltb y x = false.
Hypothesis ltb_negtrans :
  forall x y z, ltb y x = false -> ltb z y = false -> ltb z x = false.

Lemma fold_pymax (l : list D) (x : D) :
  In (fold_left pymax l x) (x :: l) /\
  forall t, In t (x :: l) -> ltb (fold_left pymax l x) t = false.
Proof.
  revert x. induction l as [|y l IH]; intros x; cbn [fold_left].
  - split; [now left|]. intros t [<-|[]]. now apply ltb_irrefl.
  - destruct (IH (pymax x y)) as [Hin Hub].
    destruct (pymax_not_smaller ltb_asym x y) as [Hx Hy].
    split.
    + destruct Hin as [Hin|Hin]; [|right; now right].
      rewrite <- Hin.
      destruct (pymax_either x y) as [E|E]; rewrite E;
        [now left|right; now left].
    + intros t [<-|[<-|Ht]].
      * eapply ltb_negtrans; [exact Hx|]. apply Hub. now left.
      * eapply ltb_negtrans; [exact Hy|]. apply Hub. now left.
      * apply Hub. now right.
Qed.

Lemma pymax_list_max (l : list D) (m : D) :
  pymax_list l = Ok m ->
  In m l /\ forall t, In t l -> ltb m t = false.
Proof.
  destruct l as [|x l]; cbn; [discriminate|]. intros [= <-]. apply fold_pymax.
Qed.

(** X14. When [SewSurfaceParts] is given parts and no maximum tolerance,
    its sewing tool is made with a maximum tolerance that is the
    tolerance of the shape of one of the parts and that is below the
    tolerance of the shape of none of them. *)
Theorem default_max_tolerance (parts : list Part) (tol : option D) (w : World) :
  parts <> [] ->
  exists m,
    sew_tool parts tol None w =
    (Ok (SewShape (default_tol tol (map (shape_of w) parts)) m
           (map (shape_of w) parts)),
     add_history w [EvSew (map (shape_of w) parts)]) /\
    (exists p, In p parts /\ m = global_tolerance (shape_of w p) 1) /\
    (forall p, In p parts -> ltb m (global_tolerance (shape_of w p) 1) = false).
Proof.
  intros Hne. rewrite sew_tool_run. unfold default_max_tol.
  destruct (pymax_list (map (fun shape => global_tolerance shape 1)
                          (map (shape_of w) parts))) as [m|e] eqn:E.
  - exists m. split; [reflexivity|].
    apply pymax_list_max in E as [Hin Hub]. rewrite map_map in Hin, Hub.
    split.
    + apply in_map_iff in Hin as (p & <- & Hp). now exists p.
    + intros p Hp. apply Hub, in_map_iff. now exists p.
  - destruct parts; [contradiction|discriminate].
Qed.

End MaxTolerance.

(** What the sewing tool makes of the shape of a part, and the writes
    of [SewSurfaceParts] on the parts whose shape it modifies. *)
Definition sewn (sew : SewTool) (w : World) (p : Part) : Shape :=
  if is_modified sew (shape_of w p) then modified sew (shape_of w p)
  else shape_of w p.

Definition sew_writes (sew : SewTool) (w : World) (parts : list Part)
  : list Event :=
  map (fun p => EvSetShape p (modified sew (shape_of w p)))
    (List.filter (fun p => is_modified sew (shape_of w p)) parts).

Lemma sew_loop_nodup (sew : SewTool) (w0 : World) (parts : list Part) (w : World) :
  NoDup parts ->
  (forall p, p ∈ parts -> shape_of w p = shape_of w0 p) ->
  exists w',
    for_each parts (sew_body sew) tt w = (Ok tt, w') /\
    history w' = history w ++ sew_writes sew w0 parts /\
    (forall p, p ∈ parts -> shape_of w' p = sewn sew w0 p) /\
    (forall p, p ∉ parts -> shape_of w' p = shape_of w p).
Proof.
  revert w. induction parts as [|q l IH]; intros w Hnd Hsame.
  - exists w. cbn. rewrite app_nil_r. repeat split; try reflexivity.
    intros p Hp. now apply elem_of_nil in Hp.
  - apply NoDup_cons in Hnd as [Hq Hnd].
    rewrite for_each_cons, (bind_ok _ _ _ _ _ (sew_step sew q w)).
    assert (Hq0 : shape_of w q = shape_of w0 q) by (apply Hsame; now left).
    rewrite Hq0. unfold sew_writes, sewn. cbn [List.filter].
    destruct (is_modified sew (shape_of w0 q)) eqn:E.
    + destruct (IH (write w q (modified sew (shape_of w0 q))) Hnd)
        as (w' & -> & Hh & Hin & Hout).
      { intros p Hp. rewrite write_other by (intros ->; contradiction).
        apply Hsame. now right. }
      exists w'. split; [reflexivity|]. split; [|split].
      * rewrite Hh, write_history. cbn [map]. now rewrite <- app_assoc.
      * intros p [->|Hp]%elem_of_cons; [|now apply Hin].
        now rewrite (Hout q Hq), write_same, E.
      * intros p [Hne Hp]%not_elem_of_cons.
        rewrite (Hout p Hp). now apply write_other.
    + destruct (IH w Hnd) as (w' & -> & Hh & Hin & Hout).
      { intros p Hp. apply Hsame. now right. }
      exists w'. split; [reflexivity|]. split; [exact Hh|]. split.
      * intros p [->|Hp]%elem_of_cons; [|now apply Hin].
        now rewrite (Hout q Hq), E.
      * intros p [_ Hp]%not_elem_of_cons. now apply Hout.
Qed.

(** X15. When every part is given once, [SewSurfaceParts] sews, then
    writes once each part whose shape the tool reports as modified, in
    the order of the parts, with what the tool made of that shape; the
    other parts of the call and the parts outside it keep their
    shape. *)
Theorem sew_rewrites_modified_parts (parts : list Part) (tol max_tol : option D)
  (w : World) (sew : SewTool) (w1 : World) :
  NoDup parts ->
  sew_tool parts tol max_tol w = (Ok sew, w1) ->
  exists w',
    SewSurfaceParts parts tol max_tol w = (Ok tt, w') /\
    history w' = history w ++ EvSew (map (shape_of w) parts) ::
                 sew_writes sew w parts /\
    (forall p, p ∈ parts -> shape_of w' p = sewn sew w p) /\
    (forall p, p ∉ parts -> shape_of w' p = shape_of w p).
Proof.
  intros Hnd Ht. unfold SewSurfaceParts. rewrite (bind_ok _ _ _ _ _ Ht).
  fold (sew_body sew). apply sew_tool_inv in Ht as ->.
  destruct (sew_loop_nodup sew w parts
              (add_history w [EvSew (map (shape_of w) parts)]) Hnd)
    as (w' & -> & Hh & Hin & Hout); [reflexivity|].
  exists w'. split; [reflexivity|].
  split; [rewrite Hh; cbn; now rewrite <- app_assoc|]. now split.
Qed.

(** *** More on the three Boolean operations *)

Lemma rebuild_step_raise (rebuild : Rebuild) (part : Part) (w : World) (e : exn) :
  new_shape rebuild (shape_of w part) = Raise e ->
  rebuild_body rebuild tt part w = (Raise e, w).
Proof.
  intros H. unfold rebuild_body, bind, get_shape, lift. now rewrite H.
Qed.

(** Writes on parts of the list only. *)
Definition writes_on (parts : list Part) (evs : list Event) : Prop :=
  forall e, e ∈ evs -> exists p s, e = EvSetShape p s /\ p ∈ parts.

(** Whatever the resolver answers, the rebuild loop writes parts of its
    list only. *)
Lemma rebuild_frame (rebuild : Rebuild) (parts : list Part) (w : World) :
  exists r w' evs,
    rebuild_parts rebuild parts w = (r, w') /\
    history w' = history w ++ evs /\
    writes_on parts evs /\
    (forall p, p ∉ parts -> shape_of w' p = shape_of w p).
Proof.
  unfold rebuild_parts, writes_on. fold (rebuild_body rebuild).
  revert w. induction parts as [|q l IH]; intros w.
  - exists (Ok tt), w, []. cbn. rewrite app_nil_r.
    repeat split; try reflexivity. intros e He. now apply elem_of_nil in He.
  - rewrite for_each_cons.
    destruct (new_shape rebuild (shape_of w q)) as [s|e] eqn:E.
    + rewrite (bind_ok _ _ _ _ _ (rebuild_step rebuild q w s E)).
      destruct (IH (write w q s)) as (r & w' & evs & -> & Hh & Hw & Hout).
      exists r, w', (EvSetShape q s :: evs). split; [reflexivity|].
      split; [rewrite Hh, write_history; now rewrite <- app_assoc|].
      split.
      * intros e' [->|He]%elem_of_cons.
        -- exists q, s. split; [reflexivity|now left].
        -- destruct (Hw e' He) as (p & s' & -> & Hp).
           exists p, s'. split; [reflexivity|now right].
      * intros p [Hne Hp]%not_elem_of_cons.
        rewrite (Hout p Hp). now apply write_other.
    + rewrite (bind_raise _ _ _ _ _ (rebuild_step_raise rebuild q w e E)).
      exists (Raise e), w, []. rewrite app_nil_r.
      repeat split; try reflexivity. intros e' He. now apply elem_of_nil in He.
Qed.

(** X16. [SplitParts] never writes a part that is only a tool: whatever
    the split tool and the resolver answer, the writes that follow the
    build are on parts of the first group, and every other part keeps
    its shape. *)
Theorem split_leaves_tools (parts : list Part) (tools : option (list Part))
  (fuzzy_val : option D) (w : World) :
  exists r w' evs,
    SplitParts parts tools fuzzy_val w = (r, w') /\
    history w' = history w ++
      EvBuild (map (shape_of w) parts)
        (default [] (map (shape_of w) <$> tools)) :: evs /\
    writes_on parts evs /\
    (forall p, p ∉ parts -> shape_of w' p = shape_of w p).
Proof.
  set (args := map (shape_of w) parts).
  set (shapes := map (shape_of w) <$> tools).
  set (rebuild := RebuildShapesByTool args (SplitShapes fuzzy_val args shapes)).
  destruct (rebuild_frame rebuild parts
              (add_history w [EvBuild args (default [] shapes)]))
    as (r & w' & evs & E & Hh & Hw & Hout).
  assert (Hrun : SplitParts parts tools fuzzy_val w =
                 match r with
                 | Ok _ => (Ok {| SplitParts_is_done :=
                                    is_done (SplitShapes fuzzy_val args shapes);
                                  SplitParts_split_shape :=
                                    shape (SplitShapes fuzzy_val args shapes) |},
                            w')
                 | Raise e => (Raise e, w')
                 end).
  { unfold SplitParts, bind, shapes_of, emit.
    destruct tools as [tools|]; cbn; fold args; cbn in *; fold rebuild;
      rewrite E; now destruct r. }
  destruct r; eexists _, w', evs; (split; [exact Hrun|]);
    (split; [rewrite Hh; cbn; now rewrite <- app_assoc|]); now split.
Qed.

Lemma rebuild_stops (rebuild : Rebuild) (pre : list Part) (q : Part)
  (post : list Part) (before : list Event) (w : World) (e : exn) :
  NoDup pre -> q ∉ pre -> resolves rebuild pre w ->
  new_shape rebuild (shape_of w q) = Raise e ->
  exists w',
    rebuild_parts rebuild (pre ++ q :: post) (add_history w before) =
    (Raise e, w') /\
    rebuilt rebuild pre before w w'.
Proof.
  intros Hnd Hq Hres He.
  destruct (rebuild_loop_after rebuild pre before w Hnd Hres) as (w1 & E1 & Hr).
  exists w1. split; [|exact Hr].
  unfold rebuild_parts in *. rewrite for_each_app, E1, for_each_cons.
  fold (rebuild_body rebuild).
  apply bind_raise, rebuild_step_raise.
  destruct Hr as (_ & _ & Hout). now rewrite (Hout q Hq).
Qed.

(** X17. When the resolver raises for a part, [FuseSurfaceParts] and
    [SplitParts] raise that error after the build: the parts before it
    in the loop, given once each and answered by the resolver, are
    already rewritten with these answers, and it and every other part
    keep their shape. *)
Theorem resolver_error_stops_the_loop :
  (forall (parts tools pre : list Part) (q : Part) (post : list Part)
          (fuzzy_val : option D) (w : World) (e : exn),
     let args := map (shape_of w) parts in
     let shapes := map (shape_of w) tools in
     let rebuild :=
       RebuildShapesByTool (args ++ shapes) (FuseShapes fuzzy_val args shapes) in
     parts ++ tools = pre ++ q :: post ->
     NoDup pre -> q ∉ pre -> resolves rebuild pre w ->
     new_shape rebuild (shape_of w q) = Raise e ->
     exists w',
       FuseSurfaceParts parts tools fuzzy_val w = (Raise e, w') /\
       rebuilt rebuild pre [EvBuild args shapes] w w') /\
  (forall (tools : option (list Part)) (pre : list Part) (q : Part)
          (post : list Part) (fuzzy_val : option D) (w : World) (e : exn),
     let args := map (shape_of w) (pre ++ q :: post) in
     let shapes := map (shape_of w) <$> tools in
     let rebuild := RebuildShapesByTool args (SplitShapes fuzzy_val args shapes) in
     NoDup pre -> q ∉ pre -> resolves rebuild pre w ->
     new_shape rebuild (shape_of w q) = Raise e ->
     exists w',
       SplitParts (pre ++ q :: post) tools fuzzy_val w = (Raise e, w') /\
       rebuilt rebuild pre [EvBuild args (default [] shapes)] w w').
Proof.
  split.
  - intros parts tools pre q post fuzzy_val w e args shapes rebuild
      Hsplit Hnd Hq Hres He.
    destruct (rebuild_stops rebuild pre q post [EvBuild args shapes] w e
                Hnd Hq Hres He) as (w' & E & Hr).
    exists w'. split; [|exact Hr].
    unfold FuseSurfaceParts, bind, shapes_of, emit. cbn.
    fold args shapes rebuild. rewrite Hsplit. now rewrite E.
  - intros tools pre q post fuzzy_val w e args shapes rebuild Hnd Hq Hres He.
    destruct (rebuild_stops rebuild pre q post
                [EvBuild args (default [] shapes)] w e Hnd Hq Hres He)
      as (w' & E & Hr).
    exists w'. split; [|exact Hr].
    unfold SplitParts, bind, shapes_of, emit.
    destruct tools as [tools|]; cbn; fold args; cbn in *;
      fold rebuild; now rewrite E.
Qed.

(** X18. On two assemblies or more, [FuseAssemblies] makes one compound
    per assembly, in order, then builds one Boolean operation with the
    first compound as its only argument and the others as its tools;
    the writes that follow are on parts of the assemblies, and every
    other part keeps its shape, whatever the resolver answers. *)
Theorem one_compound_per_assembly (assy0 assy1 : Assembly)
  (assys : list Assembly) (fuzzy_val : option D) (include_subassy : bool)
  (w : World) :
  let all := assy0 :: assy1 :: assys in
  exists r w' evs,
    FuseAssemblies all fuzzy_val include_subassy w = (r, w') /\
    history w' = history w ++
      compound_events include_subassy w all ++
      EvBuild (take 1 (compounds include_subassy w all))
              (drop 1 (compounds include_subassy w all)) :: evs /\
    length (compounds include_subassy w all) = length all /\
    writes_on (parts_of include_subassy all) evs /\
    (forall p, p ∉ parts_of include_subassy all -> shape_of w' p = shape_of w p).
Proof.
  intros all.
  set (parts1 := get_parts assy0 include_subassy).
  set (shape1 := CompoundByShapes (map (shape_of w) parts1)).
  set (tools := compounds include_subassy w (assy1 :: assys)).
  set (all_parts := parts1 ++ parts_of include_subassy (assy1 :: assys)).
  set (bop := FuseShapes fuzzy_val [shape1] tools).
  set (rebuild := RebuildShapesByTool (map (shape_of w) all_parts) bop).
  set (before := EvCompound (map (shape_of w) parts1) ::
                 compound_events include_subassy w (assy1 :: assys) ++
                 [EvBuild [shape1] tools]).
  destruct (rebuild_frame rebuild all_parts (add_history w before))
    as (r & w' & evs & E & Hh & Hw & Hout).
  assert (Hrun : FuseAssemblies all fuzzy_val include_subassy w =
                 match r with
                 | Ok _ => (Ok {| _bop := bop |}, w')
                 | Raise e => (Raise e, w')
                 end).
  { unfold FuseAssemblies, all.
    replace (Z.of_nat (length (assy0 :: assy1 :: assys)) <? 2) with false
      by (symmetry; apply Z.ltb_ge; cbn [length]; lia).
    rewrite (bind_ok _ _ w w assy0)
      by (unfold lift; now rewrite getitem_0).
    fold parts1.
    rewrite (bind_ok _ _ _ w _ (eq_refl : shapes_of parts1 w = (Ok _, w))).
    rewrite (bind_ok _ _ _ _ _ (eq_refl : emit _ w = (Ok tt, add_history w _))).
    fold shape1.
    match goal with
    | |- bind (for_each _ ?f _) _ _ = _ =>
        change f with (compound_body include_subassy)
    end.
    change (drop 1 (assy0 :: assy1 :: assys)) with (assy1 :: assys).
    rewrite (bind_ok _ _ _ _ _ (compound_loop include_subassy (assy1 :: assys)
                                  [] [] w _)).
    cbn [app]. fold tools.
    rewrite (bind_ok _ _ _ _ _
               (eq_refl : emit _ (add_history w _) = (Ok tt, _))).
    rewrite add_history_app.
    fold all_parts.
    rewrite (bind_ok _ _ _ _ _
               (eq_refl : shapes_of all_parts (add_history w _) = (Ok _, _))).
    cbn [shape_of add_history]. fold bop rebuild.
    change ((EvCompound (map (shape_of w) parts1) ::
             compound_events include_subassy w (assy1 :: assys)) ++
            [EvBuild [shape1] tools]) with before.
    unfold bind. rewrite E. now destruct r. }
  destruct r; eexists _, w', evs; (split; [exact Hrun|]);
    (split; [|split; [|split]]).
  all: try exact Hw; try exact Hout.
  all: try (unfold compounds; now rewrite length_map).
  all: rewrite Hh; unfold before, all, shape1, parts1, assy_shapes; cbn;
    rewrite <- app_assoc; f_equal; cbn [app]; do 2 f_equal;
    now rewrite <- app_assoc.
Qed.

(** *** The writes of the six operations *)

(** The shapes after the writes that are among the events [evs]. *)
Fixpoint shapes_written (evs : list Event) (shapes : Part -> Shape)
  : Part -> Shape :=
  match evs with
  | [] => shapes
  | EvSetShape part new :: evs' =>
      shapes_written evs' (fun p => if Pos.eqb p part then new else shapes p)
  | _ :: evs' => shapes_written evs' shapes
  end.

(** No event is a write. *)
Definition no_write (evs : list Event) : Prop :=
  forall p s, EvSetShape p s ∉ evs.

(** The events [evs] of a rebuild loop over [parts] that starts on the
    shapes [shapes], answers [r] and ends on the shapes [shapes']: the
    event of index [k] is the write of the part of index [k], with the
    answer of the resolver for the shape the part has at that moment;
    there is one write per part if the loop returns, and if it raises,
    the error is that of the resolver for the part that follows the
    written ones; the shapes at the end are the shapes at the start
    with these writes, and a part outside the list keeps its shape. *)
Definition rebuild_writes {A} (rebuild : Rebuild) (parts : list Part)
  (shapes : Part -> Shape) (evs : list Event) (r : result A)
  (shapes' : Part -> Shape) : Prop :=
  shapes' = shapes_written evs shapes /\
  (forall pre e post, evs = pre ++ e :: post ->
     exists p s, e = EvSetShape p s /\
                 parts !! length pre = Some p /\
                 new_shape rebuild (shapes_written pre shapes p) = Ok s) /\
  match r with
  | Ok _ => length evs = length parts
  | Raise e => exists q, parts !! length evs = Some q /\
                         new_shape rebuild (shapes' q) = Raise e
  end /\
  (forall p, p ∉ parts -> shapes' p = shapes p).

(** The events [evs] of the loop of [SewSurfaceParts] over [parts]:
    each one is the write of a part of the list whose shape, at that
    moment, the sewing tool reports as modified, with what the tool
    made of that shape. *)
Definition sewing_writes (sew : SewTool) (parts : list Part)
  (shapes : Part -> Shape) (evs : list Event) (shapes' : Part -> Shape)
  : Prop :=
  shapes' = shapes_written evs shapes /\
  (forall pre e post, evs = pre ++ e :: post ->
     exists p, e = EvSetShape p (modified sew (shapes_written pre shapes p)) /\
               p ∈ parts /\
               is_modified sew (shapes_written pre shapes p) = true) /\
  (forall p, p ∉ parts -> shapes' p = shapes p).

Lemma rebuild_run (rebuild : Rebuild) (parts : list Part) (w : World) :
  exists r w' evs,
    rebuild_parts rebuild parts w = (r, w') /\
    history w' = history w ++ evs /\
    rebuild_writes rebuild parts (shape_of w) evs r (shape_of w').
Proof.
  unfold rebuild_parts, rebuild_writes. fold (rebuild_body rebuild).
  revert w. induction parts as [|q l IH]; intros w.
  - exists (Ok tt), w, []. cbn. rewrite app_nil_r.
    split; [reflexivity|]. split; [reflexivity|]. split; [reflexivity|].
    split; [|now split].
    intros [|e0 pre] e post H; discriminate H.
  - rewrite for_each_cons.
    destruct (new_shape rebuild (shape_of w q)) as [s|e] eqn:E.
    + rewrite (bind_ok _ _ _ _ _ (rebuild_step rebuild q w s E)).
      destruct (IH (write w q s))
        as (r & w' & evs & -> & Hh & Hs & Ha & Hr & Hout).
      exists r, w', (EvSetShape q s :: evs). split; [reflexivity|].
      split; [rewrite Hh, write_history; now rewrite <- app_assoc|].
      split; [exact Hs|]. split; [|split].
      * intros [|e0 pre] e' post H; injection H as <- H.
        -- exists q, s. split; [reflexivity|]. split; [reflexivity|exact E].
        -- destruct (Ha pre e' post H) as (p & s' & -> & Hl & Hn).
           exists p, s'. split; [reflexivity|]. split; [exact Hl|exact Hn].
      * destruct r as [a|e].
        -- cbn [length]. now rewrite Hr.
        -- destruct Hr as (q' & Hl & Hn). exists q'. now split.
      * intros p [Hne Hp]%not_elem_of_cons.
        rewrite (Hout p Hp). now apply write_other.
    + rewrite (bind_raise _ _ _ _ _ (rebuild_step_raise rebuild q w e E)).
      exists (Raise e), w, []. rewrite app_nil_r.
      split; [reflexivity|]. split; [reflexivity|]. split; [reflexivity|].
      split; [intros [|e0 pre] e' post H; discriminate H|].
      split; [|reflexivity]. exists q. now split.
Qed.

Lemma sew_run (sew : SewTool) (parts : list Part) (w : World) :
  exists w' evs,
    for_each parts (sew_body sew) tt w = (Ok tt, w') /\
    history w' = history w ++ evs /\
    sewing_writes sew parts (shape_of w) evs (shape_of w').
Proof.
  unfold sewing_writes.
  revert w. induction parts as [|q l IH]; intros w.
  - exists w, []. cbn. rewrite app_nil_r.
    split; [reflexivity|]. split; [reflexivity|]. split; [reflexivity|].
    split; [|reflexivity].
    intros [|e0 pre] e post H; discriminate H.
  - rewrite for_each_cons, (bind_ok _ _ _ _ _ (sew_step sew q w)).
    destruct (is_modified sew (shape_of w q)) eqn:E.
    + destruct (IH (write w q (modified sew (shape_of w q))))
        as (w' & evs & -> & Hh & Hs & Ha & Hout).
      exists w', (EvSetShape q (modified sew (shape_of w q)) :: evs).
      split; [reflexivity|].
      split; [rewrite Hh, write_history; now rewrite <- app_assoc|].
      split; [exact Hs|]. split.
      * intros [|e0 pre] e' post H; injection H as <- H.
        -- exists q. split; [reflexivity|]. split; [now left|exact E].
        -- destruct (Ha pre e' post H) as (p & -> & Hp & Hm).
           exists p. split; [reflexivity|]. split; [now right|exact Hm].
      * intros p [Hne Hp]%not_elem_of_cons.
        rewrite (Hout p Hp). now apply write_other.
    + destruct (IH w) as (w' & evs & -> & Hh & Hs & Ha & Hout).
      exists w', evs. split; [reflexivity|]. split; [exact Hh|].
      split; [exact Hs|]. split.
      * intros pre e' post H.
        destruct (Ha pre e' post H) as (p & -> & Hp & Hm).
        exists p. split; [reflexivity|]. split; [now right|exact Hm].
      * intros p [_ Hp]%not_elem_of_cons. now apply Hout.
Qed.

(** [FuseAssemblies] on two assemblies or more, up to its rebuild
    loop. *)
Lemma fuse_assemblies_run (assy0 assy1 : Assembly) (assys : list Assembly)
  (fuzzy_val : option D) (include_subassy : bool) (w : World) :
  let parts1 := get_parts assy0 include_subassy in
  let shape1 := CompoundByShapes (map (shape_of w) parts1) in
  let tools := compounds include_subassy w (assy1 :: assys) in
  let all_parts := parts1 ++ parts_of include_subassy (assy1 :: assys) in
  let bop := FuseShapes fuzzy_val [shape1] tools in
  let rebuild := RebuildShapesByTool (map (shape_of w) all_parts) bop in
  FuseAssemblies (assy0 :: assy1 :: assys) fuzzy_val include_subassy w =
  match rebuild_parts rebuild all_parts
          (add_history w
             (EvCompound (map (shape_of w) parts1) ::
              compound_events include_subassy w (assy1 :: assys) ++
              [EvBuild [shape1] tools])) with
  | (Ok _, w') => (Ok {| _bop := bop |}, w')
  | (Raise e, w') => (Raise e, w')
  end.
Proof.
  intros parts1 shape1 tools all_parts bop rebuild.
  unfold FuseAssemblies.
  replace (Z.of_nat (length (assy0 :: assy1 :: assys)) <? 2) with false
    by (symmetry; apply Z.ltb_ge; cbn [length]; lia).
  rewrite (bind_ok _ _ w w assy0)
    by (unfold lift; now rewrite getitem_0).
  fold parts1.
  rewrite (bind_ok _ _ _ w _ (eq_refl : shapes_of parts1 w = (Ok _, w))).
  rewrite (bind_ok _ _ _ _ _ (eq_refl : emit _ w = (Ok tt, add_history w _))).
  fold shape1.
  match goal with
  | |- bind (for_each _ ?f _) _ _ = _ =>
      change f with (compound_body include_subassy)
  end.
  change (drop 1 (assy0 :: assy1 :: assys)) with (assy1 :: assys).
  rewrite (bind_ok _ _ _ _ _ (compound_loop include_subassy (assy1 :: assys)
                                [] [] w _)).
  cbn [app]. fold tools.
  rewrite (bind_ok _ _ _ _ _
             (eq_refl : emit _ (add_history w _) = (Ok tt, _))).
  rewrite add_history_app.
  fold all_parts.
  rewrite (bind_ok _ _ _ _ _
             (eq_refl : shapes_of all_parts (add_history w _) = (Ok _, _))).
  cbn [shape_of add_history]. fold bop rebuild.
  unfold bind.
  now destruct (rebuild_parts rebuild all_parts _) as [[u|e] w'].
Qed.

Lemma all_tests_no_write (tol : option D) (w : World) (parts : list Part) :
  no_write (all_tests tol w parts).
Proof.
  intros p s H. apply all_tests_elem in H as (i & j & m & o & _ & _ & _ & _ & H).
  discriminate H.
Qed.

Lemma fuse_events_no_write (groups : list (Part * list Part)) :
  no_write (map fuse_event groups).
Proof.
  intros p s H. apply list_elem_of_fmap in H as (g & H & _). discriminate H.
Qed.

Lemma cut_events_no_write (shape2 : Shape) (parts : list Part) :
  no_write (cut_events shape2 parts).
Proof.
  intros p s H. apply list_elem_of_fmap in H as (g & H & _). discriminate H.
Qed.

(** C2, as the code has it. None of the six operations consults the
    [is_done] of its tool before it writes.

    [FuseSurfaceParts], [SplitParts] and [FuseAssemblies] build the
    Boolean tool first; the events that follow the build are writes of
    parts of the call, in the order of the rebuild loop, each with the
    answer of the resolver for the shape the part has at that moment;
    the loop stops at the first part for which the resolver raises,
    with the parts before it written; no other part is written; and a
    call that returns gives the [is_done] and the shape of the tool,
    whatever they are.

    [SewSurfaceParts] writes nothing if it raises; otherwise it sews
    first, and the events that follow are writes of parts of the call
    whose shape the sewing tool reports as modified, with what the tool
    made of that shape.

    [CutParts] and [FuseSurfacePartsByCref] write no shape of their
    own: the shapes change in the [cut] and the [fuse] of the parts
    only. *)
Theorem rewrite_after_build_whatever_is_done :
  (forall (parts tools : list Part) (fuzzy_val : option D) (w : World),
     let args := map (shape_of w) parts in
     let shapes := map (shape_of w) tools in
     let bop := FuseShapes fuzzy_val args shapes in
     let rebuild := RebuildShapesByTool (args ++ shapes) bop in
     exists r w' evs,
       FuseSurfaceParts parts tools fuzzy_val w = (r, w') /\
       history w' = history w ++ EvBuild args shapes :: evs /\
       rebuild_writes rebuild (parts ++ tools) (shape_of w) evs r (shape_of w') /\
       (forall obj, r = Ok obj ->
          obj = {| FuseSurfaceParts_is_done := is_done bop;
                   FuseSurfaceParts_fused_shape := shape bop |})) /\
  (forall (parts : list Part) (tools : option (list Part))
          (fuzzy_val : option D) (w : World),
     let args := map (shape_of w) parts in
     let shapes := map (shape_of w) <$> tools in
     let bop := SplitShapes fuzzy_val args shapes in
     let rebuild := RebuildShapesByTool args bop in
     exists r w' evs,
       SplitParts parts tools fuzzy_val w = (r, w') /\
       history w' = history w ++ EvBuild args (default [] shapes) :: evs /\
       rebuild_writes rebuild parts (shape_of w) evs r (shape_of w') /\
       (forall obj, r = Ok obj ->
          obj = {| SplitParts_is_done := is_done bop;
                   SplitParts_split_shape := shape bop |})) /\
  (forall (assy0 assy1 : Assembly) (assys : list Assembly)
          (fuzzy_val : option D) (include_subassy : bool) (w : World),
     let parts1 := get_parts assy0 include_subassy in
     let shape1 := CompoundByShapes (map (shape_of w) parts1) in
     let tools := compounds include_subassy w (assy1 :: assys) in
     let all_parts := parts1 ++ parts_of include_subassy (assy1 :: assys) in
     let bop := FuseShapes fuzzy_val [shape1] tools in
     let rebuild := RebuildShapesByTool (map (shape_of w) all_parts) bop in
     exists r w' evs,
       FuseAssemblies (assy0 :: assy1 :: assys) fuzzy_val include_subassy w =
       (r, w') /\
       history w' = history w ++
         EvCompound (map (shape_of w) parts1) ::
         compound_events include_subassy w (assy1 :: assys) ++
         EvBuild [shape1] tools :: evs /\
       rebuild_writes rebuild all_parts (shape_of w) evs r (shape_of w') /\
       (forall obj, r = Ok obj -> obj = {| _bop := bop |})) /\
  (forall (parts : list Part) (tol max_tol : option D) (w : World),
     let shapes := map (shape_of w) parts in
     match default_max_tol max_tol shapes with
     | Raise e => SewSurfaceParts parts tol max_tol w = (Raise e, w)
     | Ok m =>
         exists w' evs,
           SewSurfaceParts parts tol max_tol w = (Ok tt, w') /\
           history w' = history w ++ EvSew shapes :: evs /\
           sewing_writes (SewShape (default_tol tol shapes) m shapes) parts
             (shape_of w) evs (shape_of w')
     end) /\
  (forall (parts : list Part) (shape : Shape) (w : World),
     exists obj w',
       CutParts parts shape w = (Ok obj, w') /\
       history w' = history w ++ cut_events (to_shape shape) parts /\
       no_write (cut_events (to_shape shape) parts) /\
       shape_of w' = shapes_after_cuts (to_shape shape) parts (shape_of w)) /\
  (forall (parts : list Part) (tol : option D) (w : World),
     exists r w' evs,
       FuseSurfacePartsByCref parts tol w = (r, w') /\
       history w' = history w ++ evs /\
       no_write evs /\
       shape_of w' = shape_of (fuse_all w (if forallb is_SurfacePart parts
                                           then groups_of tol w parts
                                           else []))).
Proof.
  split; [|split; [|split; [|split; [|split]]]].
  - intros parts tools fuzzy_val w args shapes bop rebuild.
    destruct (rebuild_run rebuild (parts ++ tools)
                (add_history w [EvBuild args shapes]))
      as (r & w' & evs & E & Hh & Hw).
    assert (Hrun : FuseSurfaceParts parts tools fuzzy_val w =
                   match r with
                   | Ok _ => (Ok {| FuseSurfaceParts_is_done := is_done bop;
                                    FuseSurfaceParts_fused_shape := shape bop |},
                              w')
                   | Raise e => (Raise e, w')
                   end).
    { unfold FuseSurfaceParts, bind, shapes_of, emit. cbn.
      fold args shapes bop rebuild. rewrite E. now destruct r. }
    assert (Hh' : history w' = history w ++ EvBuild args shapes :: evs).
    { rewrite Hh. cbn. now rewrite <- app_assoc. }
    destruct r as [u|e]; eexists _, w', evs;
      (split; [exact Hrun|]); (split; [exact Hh'|]);
      (split; [exact Hw|]); now intros obj [= <-].
  - intros parts tools fuzzy_val w args shapes bop rebuild.
    destruct (rebuild_run rebuild parts
                (add_history w [EvBuild args (default [] shapes)]))
      as (r & w' & evs & E & Hh & Hw).
    assert (Hrun : SplitParts parts tools fuzzy_val w =
                   match r with
                   | Ok _ => (Ok {| SplitParts_is_done := is_done bop;
                                    SplitParts_split_shape := shape bop |}, w')
                   | Raise e => (Raise e, w')
                   end).
    { unfold SplitParts, bind, shapes_of, emit.
      destruct tools as [tools|]; cbn; fold args; cbn in *; fold bop rebuild;
        rewrite E; now destruct r. }
    assert (Hh' : history w' =
                  history w ++ EvBuild args (default [] shapes) :: evs).
    { rewrite Hh. cbn. now rewrite <- app_assoc. }
    destruct r as [u|e]; eexists _, w', evs;
      (split; [exact Hrun|]); (split; [exact Hh'|]);
      (split; [exact Hw|]); now intros obj [= <-].
  - intros assy0 assy1 assys fuzzy_val include_subassy w parts1 shape1 tools
      all_parts bop rebuild.
    pose proof (fuse_assemblies_run assy0 assy1 assys fuzzy_val
                  include_subassy w) as Hrun.
    cbv zeta in Hrun. fold parts1 shape1 tools all_parts bop rebuild in Hrun.
    destruct (rebuild_run rebuild all_parts
                (add_history w
                   (EvCompound (map (shape_of w) parts1) ::
                    compound_events include_subassy w (assy1 :: assys) ++
                    [EvBuild [shape1] tools])))
      as (r & w' & evs & E & Hh & Hw).
    rewrite E in Hrun.
    assert (Hh' : history w' = history w ++
                  EvCompound (map (shape_of w) parts1) ::
                  compound_events include_subassy w (assy1 :: assys) ++
                  EvBuild [shape1] tools :: evs).
    { rewrite Hh. cbn [history add_history]. rewrite <- app_assoc. f_equal.
      rewrite <- app_comm_cons. f_equal. now rewrite <- app_assoc. }
    destruct r as [u|e]; eexists _, w', evs;
      (split; [exact Hrun|]); (split; [exact Hh'|]);
      (split; [exact Hw|]); now intros obj [= <-].
  - intros parts tol max_tol w shapes.
    unfold SewSurfaceParts.
    pose proof (sew_tool_run parts tol max_tol w) as Ht. fold shapes in Ht.
    destruct (default_max_tol max_tol shapes) as [m|e].
    + rewrite (bind_ok _ _ _ _ _ Ht).
      fold (sew_body (SewShape (default_tol tol shapes) m shapes)).
      destruct (sew_run (SewShape (default_tol tol shapes) m shapes) parts
                  (add_history w [EvSew shapes]))
        as (w' & evs & E & Hh & Hw).
      exists w', evs. split; [exact E|]. split; [|exact Hw].
      rewrite Hh. cbn. now rewrite <- app_assoc.
    + now rewrite (bind_raise _ _ _ _ _ Ht).
  - intros parts shape0 w.
    unfold CutParts. cbv zeta. fold (cut_body (to_shape shape0)).
    destruct (cut_loop (to_shape shape0) parts ∅ w) as (st' & w' & E & Hh & _).
    fold (cut_body (to_shape shape0)) in E.
    exists {| _status := st' |}, w'. rewrite (bind_ok _ _ _ _ _ E).
    split; [reflexivity|]. split; [exact Hh|].
    split; [apply cut_events_no_write|].
    apply (cut_loop_shapes _ _ _ _ _ _ E).
  - intros parts tol w.
    destruct (forallb is_SurfacePart parts) eqn:Hs.
    + eexists _, _, (all_tests tol w parts ++
                     map fuse_event (groups_of tol w parts)).
      split; [apply (fuse_by_cref_run parts tol w Hs)|].
      split; [rewrite fuse_all_history; cbn; now rewrite <- app_assoc|].
      split.
      * intros p s [H|H]%elem_of_app.
        -- now apply all_tests_no_write in H.
        -- now apply fuse_events_no_write in H.
      * now rewrite !fuse_all_shapes.
    + eexists _, w, []. split; [apply (fuse_by_cref_type_error parts tol w Hs)|].
      split; [now rewrite app_nil_r|]. split; [|reflexivity].
      intros p s H. now apply elem_of_nil in H.
Qed.

End Orchestrator.

Arguments shape_of {D} _ _.
Arguments history {D} _.
Arguments EvIntersect {D} _ _ _.
Arguments EvFuse {D} _ _.
Arguments EvCut {D} _ _.
Arguments EvBuild {D} _ _.
Arguments EvSew {D} _.
Arguments EvCompound {D} _.
Arguments EvSetShape {D} _ _.

(** *** A concrete model

    Tolerances in [Z]; part [p] starts with the shape [p] and has the
    reference curve [p], except part [9] which has none; the tolerance
    of a shape is its number; only the edges [1] and [2] meet. *)

Definition zworld : World Z := {| shape_of := fun p => p; history := [] |}.

Definition zis_surface (p : Part) : bool := true.
Definition zhas_cref (p : Part) : bool := negb (Pos.eqb p 9).
Definition zcref (p : Part) : Curve := p.
Definition ztolerance (s : Shape) (mode : Z) : Z := Zpos s.
Definition zedge (c : Curve) : Edge := c.
Definition zintersect (e1 e2 : Edge) (tol : Z) : list Vertex :=
  if Pos.eqb e1 1 && Pos.eqb e2 2 then [1%positive] else [].
Definition zcompound (shapes : list Shape) : Shape := 100.

(** Modelled from the spec: the method [new_shape] of
    [RebuildShapesByTool], the shape rebuild resolver, which is not part
    of the two modules. A shape that the modification map of the tool
    sends to itself is unmodified and is returned as it is; a single
    replacement is returned; several fragments are returned as one
    compound; a shape deleted with no replacement fails. *)
Definition spec_new_shape (rebuild : Rebuild) (old_shape : Shape) : result Shape :=
  match modification (tool rebuild) old_shape with
  | [] => Raise (RuntimeError "Shape was deleted.")
  | [s] => Ok s
  | fragments => Ok (zcompound fragments)
  end.
Definition zmean (l : list Z) : Z := 0.
Definition zget_parts (assy : Assembly) (include_subassy : bool) : list Part :=
  [assy; (assy + 10)%positive].

(** A part's [fuse] that leaves the shapes alone, and a [cut] that
    fails on part [2] and gives any other part [p] the shape
    [p + 100]. *)
Definition zpart_fuse (main : Part) (other_parts : list Part)
  (shapes : Part -> Shape) : Part -> Shape := shapes.

Definition zpart_cut (part : Part) (cutter : Shape) (shapes : Part -> Shape)
  : bool * (Part -> Shape) :=
  if Pos.eqb part 2 then (false, shapes)
  else (true, fun p => if Pos.eqb p part then (part + 100)%positive
                       else shapes p).

(** A Boolean tool that is not done and still reports shape [1] as
    replaced by shape [2]. *)
Definition zfailed_bop : BopTool :=
  {| is_done := false; shape := 99;
     modification := fun s => if Pos.eqb s 1 then [2%positive] else [s] |}.

Definition zfuse_shapes (fuzzy_val : option Z) (args tools : list Shape)
  : BopTool := zfailed_bop.

Definition zsplit_shapes (fuzzy_val : option Z) (args : list Shape)
  (tools : option (list Shape)) : BopTool := zfailed_bop.

(** A sewing tool that modifies shape [1] only. *)
Definition zsew (tol max_tol : Z) (shapes : list Shape) : SewTool :=
  {| is_modified := fun s => Pos.eqb s 1;
     modified := fun s => (s + 50)%positive |}.

Definition zfuse_by_cref :=
  FuseSurfacePartsByCref Z Z.ltb zis_surface zhas_cref zcref zpart_fuse
    ztolerance zedge zintersect.

Example discovery_three_parts :
  let r := zfuse_by_cref [1; 2; 3]%positive None zworld in
  fst r = Ok {| FuseSurfacePartsByCref_is_done := true |} /\
  history (snd r) =
    [EvIntersect 1 2 2; EvIntersect 1 3 3; EvIntersect 2 3 3;
     EvFuse 1 [2%positive]].
Proof. split; reflexivity. Qed.

Example discovery_no_cref :
  let r := zfuse_by_cref [1; 9; 2]%positive (Some 7) zworld in
  fst r = Ok {| FuseSurfacePartsByCref_is_done := true |} /\
  history (snd r) = [EvIntersect 1 2 7; EvFuse 1 [2%positive]].
Proof. split; reflexivity. Qed.

Example discovery_order_matters :
  let r := zfuse_by_cref [2; 1; 3]%positive None zworld in
  fst r = Ok {| FuseSurfacePartsByCref_is_done := false |} /\
  history (snd r) =
    [EvIntersect 2 1 2; EvIntersect 2 3 3; EvIntersect 1 3 3].
Proof. split; reflexivity. Qed.

Example cut_three_parts :
  let r := CutParts Z zpart_cut id [1; 2; 3]%positive 5%positive zworld in
  (exists obj, fst r = Ok obj /\
     was_cut obj 1 = Ok true /\ was_cut obj 2 = Ok false /\
     was_cut obj 3 = Ok true /\ was_cut obj 4 = Raise (KeyError 4)) /\
  history (snd r) = [EvCut 1 5; EvCut 2 5; EvCut 3 5] /\
  map (shape_of (snd r)) [1; 2; 3]%positive = [101; 2; 103]%positive.
Proof.
  split; [|split; reflexivity].
  eexists. split; [reflexivity|]. repeat split.
Qed.

Example sew_no_parts :
  SewSurfaceParts Z Z.ltb ztolerance zmean zsew [] None None zworld =
  (Raise (ValueError "max() arg is an empty sequence"), zworld).
Proof. reflexivity. Qed.

Example sew_two_parts :
  let r := SewSurfaceParts Z Z.ltb ztolerance zmean zsew [1; 2]%positive
             None None zworld in
  fst r = Ok tt /\
  history (snd r) = [EvSew [1; 2]%positive; EvSetShape 1 51] /\
  map (shape_of (snd r)) [1; 2]%positive = [51; 2]%positive.
Proof. repeat split. Qed.


(** C2 as the specification states it fails: the Boolean tool is not
    done, and the shape of the part is rewritten all the same. *)
Lemma not_done_fuse_rewrites_shape :
  let r := FuseSurfaceParts Z zfuse_shapes spec_new_shape [1%positive] [] None zworld in
  fst r = Ok {| FuseSurfaceParts_is_done := false;
                FuseSurfaceParts_fused_shape := 99 |} /\
  shape_of zworld 1 = 1%positive /\
  shape_of (snd r) 1 = 2%positive /\
  shape_of (snd r) 1 <> shape_of zworld 1 /\
  history (snd r) = [EvBuild [1%positive] []; EvSetShape 1 2].
Proof. repeat split. discriminate. Qed.

Example not_done_split_rewrites_shape :
  let r := SplitParts Z zsplit_shapes spec_new_shape [1; 3]%positive None None zworld in
  fst r = Ok {| SplitParts_is_done := false; SplitParts_split_shape := 99 |} /\
  map (shape_of (snd r)) [1; 3]%positive = [2; 3]%positive /\
  history (snd r) =
    [EvBuild [1; 3]%positive []; EvSetShape 1 2; EvSetShape 3 3].
Proof. repeat split. Qed.

Lemma zresolves (parts : list Part) (old_shapes : list Shape) (w : World Z) :
  resolves Z spec_new_shape (RebuildShapesByTool old_shapes zfailed_bop) parts w.
Proof.
  intros p _. unfold spec_new_shape, RebuildShapesByTool, zfailed_bop.
  cbn [tool modification].
  destruct (Pos.eqb (shape_of w p) 1); eexists; reflexivity.
Qed.

Lemma rebuilt_when_resolved_witness :
  exists w',
    FuseSurfaceParts Z zfuse_shapes spec_new_shape [1; 3]%positive [4%positive] None
      zworld =
    (Ok {| FuseSurfaceParts_is_done := false;
           FuseSurfaceParts_fused_shape := 99 |}, w') /\
    rebuilt Z spec_new_shape
      (RebuildShapesByTool [1; 3; 4]%positive zfailed_bop) [1; 3; 4]%positive
      [EvBuild [1; 3]%positive [4%positive]] zworld w'.
Proof.
  destruct (rebuilt_when_resolved Z zcompound zget_parts
              zfuse_shapes zsplit_shapes spec_new_shape) as [Hfuse _].
  apply (Hfuse [1; 3]%positive [4%positive] None zworld).
  - repeat constructor; rewrite ?elem_of_cons, ?elem_of_nil; intuition congruence.
  - apply zresolves.
Defined.

Lemma rewrite_after_build_whatever_is_done_witness :
  exists r w' evs,
    FuseSurfaceParts Z zfuse_shapes spec_new_shape [1; 3]%positive [4%positive]
      None zworld = (r, w') /\
    history w' = history zworld ++ EvBuild [1; 3]%positive [4%positive] :: evs /\
    rebuild_writes Z spec_new_shape
      (RebuildShapesByTool [1; 3; 4]%positive zfailed_bop) [1; 3; 4]%positive
      (shape_of zworld) evs r (shape_of w') /\
    (forall obj, r = Ok obj ->
       obj = {| FuseSurfaceParts_is_done := false;
                FuseSurfaceParts_fused_shape := 99 |}).
Proof.
  exact (proj1 (rewrite_after_build_whatever_is_done Z Z.ltb zis_surface
                  zhas_cref zcref zpart_fuse zpart_cut ztolerance zedge
                  zintersect zcompound id zmean zget_parts zfuse_shapes
                  zsplit_shapes zsew spec_new_shape)
           [1; 3]%positive [4%positive] None zworld).
Defined.

(** A part given twice is written twice, the second time with the
    answer of the resolver for the shape that the first write left. *)
Example fuse_part_given_twice :
  let r := FuseSurfaceParts Z zfuse_shapes spec_new_shape [1%positive]
             [1%positive] None zworld in
  fst r = Ok {| FuseSurfaceParts_is_done := false;
                FuseSurfaceParts_fused_shape := 99 |} /\
  history (snd r) =
    [EvBuild [1%positive] [1%positive]; EvSetShape 1 2; EvSetShape 1 2] /\
  shape_of (snd r) 1 = 2%positive.
Proof. repeat split. Qed.

Lemma fuse_assemblies_too_few_witness :
  (length [7%positive] < 2)%nat /\
  FuseAssemblies Z zcompound zget_parts zfuse_shapes spec_new_shape [7%positive] None true
    zworld =
  (Raise (ValueError "Not enough assemblies to fuse. Need at least two."),
   zworld).
Proof.
  split; [cbn; lia|].
  apply (fuse_assemblies_too_few Z zcompound zget_parts zfuse_shapes
           spec_new_shape).
  cbn. lia.
Defined.

Example fuse_two_assemblies :
  let r := FuseAssemblies Z zcompound zget_parts zfuse_shapes spec_new_shape [1; 2]%positive
             None true zworld in
  fst r = Ok {| _bop := zfailed_bop |} /\
  history (snd r) =
    [EvCompound [1; 11]%positive; EvCompound [2; 12]%positive;
     EvBuild [100%positive] [100%positive];
     EvSetShape 1 2; EvSetShape 11 11; EvSetShape 2 2; EvSetShape 12 12].
Proof. repeat split. Qed.

Lemma fuse_by_cref_too_few_witness :
  (length [1%positive] < 2)%nat /\
  forallb zis_surface [1%positive] = true /\
  zfuse_by_cref [1%positive] None zworld =
  (Ok {| FuseSurfacePartsByCref_is_done := false |}, zworld).
Proof.
  split; [cbn; lia|]. split; [reflexivity|].
  apply (fuse_by_cref_too_few Z Z.ltb zis_surface zhas_cref zcref zpart_fuse
           ztolerance zedge zintersect).
  - cbn. lia.
  - reflexivity.
Defined.

Lemma sew_unmodified_untouched_witness :
  exists w' evs,
    SewSurfaceParts Z Z.ltb ztolerance zmean zsew [1; 2]%positive None None
      zworld = (Ok tt, w') /\
    history w' = [EvSew [1; 2]%positive] ++ evs /\
    (forall p, is_modified (zsew 0 2 [1; 2]%positive) (shape_of zworld p) = false ->
       shape_of w' p = shape_of zworld p /\ forall s, EvSetShape p s ∉ evs) /\
    (forall p s, EvSetShape p s ∈ evs ->
       is_modified (zsew 0 2 [1; 2]%positive) (shape_of zworld p) = true).
Proof.
  apply (sew_unmodified_untouched Z Z.ltb ztolerance zmean zsew
           [1; 2]%positive None None zworld (zsew 0 2 [1; 2]%positive)
           (add_history Z zworld [EvSew [1; 2]%positive])).
  reflexivity.
Defined.

Lemma adjacency_discovery_witness :
  forallb zis_surface [1; 2; 3]%positive = true /\
  exists obj w',
    zfuse_by_cref [1; 2; 3]%positive None zworld = (Ok obj, w') /\
    FuseSurfacePartsByCref_is_done obj = true /\
    groups_of Z Z.ltb zhas_cref zcref ztolerance zedge zintersect None zworld
      [1; 2; 3]%positive = [(1, [2])]%positive.
Proof.
  split; [reflexivity|].
  destruct (adjacency_discovery Z Z.ltb zis_surface zhas_cref zcref zpart_fuse
              ztolerance zedge zintersect [1; 2; 3]%positive None zworld
              eq_refl)
    as (obj & w' & Hrun & _ & _ & _ & _ & Hthree).
  exists obj, w'. split; [exact Hrun|].
  destruct (Hthree 1 2 3 eq_refl eq_refl eq_refl eq_refl)%positive as [Hg Hd].
  now split.
Defined.

Lemma working_tolerance_witness :
  exists evs,
    history (snd (zfuse_by_cref [1; 2; 3]%positive None zworld)) =
      history zworld ++ evs /\
    forall main other t, EvIntersect main other t ∈ evs ->
      t = pymax Z Z.ltb (ztolerance (shape_of zworld main) 1)
                        (ztolerance (shape_of zworld other) 1) /\
      (t <? ztolerance (shape_of zworld main) 1) = false /\
      (t <? ztolerance (shape_of zworld other) 1) = false.
Proof.
  destruct (working_tolerance Z Z.ltb zis_surface zhas_cref zcref zpart_fuse
              ztolerance zedge zintersect Zltb_asym [1; 2; 3]%positive None
              zworld) as (evs & Hh & Ht & _).
  exists evs. split; [exact Hh|].
  intros main other t Hin. destruct (Ht main other t Hin) as (H1 & _ & H2 & H3).
  now repeat split.
Defined.

Example supplied_tolerance :
  history (snd (zfuse_by_cref [3; 1; 2]%positive (Some 0) zworld)) =
  [EvIntersect 3 1 0; EvIntersect 3 2 0; EvIntersect 1 2 0;
   EvFuse 1 [2%positive]].
Proof. reflexivity. Qed.

Lemma Zltb_negtrans (x y z : Z) :
  (y <? x) = false -> (z <? y) = false -> (z <? x) = false.
Proof. rewrite !Z.ltb_ge. lia. Qed.

Example not_a_surface_part :
  let r := FuseSurfacePartsByCref Z Z.ltb (fun p => negb (Pos.eqb p 3))
             zhas_cref zcref zpart_fuse ztolerance zedge zintersect
             [1; 2; 3]%positive None zworld in
  r = (Raise (TypeError "Part is not a surface part."), zworld).
Proof. reflexivity. Qed.

Lemma no_test_without_two_crefs_witness :
  forallb zis_surface [9; 1; 9]%positive = true /\
  (with_cref zhas_cref [9; 1; 9]%positive < 2)%nat /\
  zfuse_by_cref [9; 1; 9]%positive None zworld =
  (Ok {| FuseSurfacePartsByCref_is_done := false |}, zworld).
Proof.
  split; [reflexivity|]. split; [cbn; lia|].
  apply (no_test_without_two_crefs Z Z.ltb zis_surface zhas_cref zcref
           zpart_fuse ztolerance zedge zintersect).
  - reflexivity.
  - cbn. lia.
Defined.

Lemma number_of_tests_and_fuses_witness :
  exists obj w' tests fuses,
    zfuse_by_cref [1; 9; 2; 3]%positive None zworld = (Ok obj, w') /\
    history w' = history zworld ++ tests ++ fuses /\
    (2 * length tests = 3 * (3 - 1))%nat /\
    (length fuses <= 3 - 1)%nat.
Proof.
  destruct (number_of_tests_and_fuses Z Z.ltb zis_surface zhas_cref zcref
              zpart_fuse ztolerance zedge zintersect [1; 9; 2; 3]%positive
              None zworld eq_refl)
    as (obj & w' & tests & fuses & Hrun & Hh & _ & _ & Ht & Hf).
  now exists obj, w', tests, fuses.
Defined.

Lemma shapes_after_fuse_by_cref_witness :
  exists obj w',
    zfuse_by_cref [2; 1; 3]%positive None zworld = (Ok obj, w') /\
    FuseSurfacePartsByCref_is_done obj = false /\
    shape_of w' = shape_of zworld.
Proof.
  destruct (shapes_after_fuse_by_cref Z Z.ltb zis_surface zhas_cref zcref
              zpart_fuse ztolerance zedge zintersect [2; 1; 3]%positive
              None zworld eq_refl)
    as (obj & w' & Hrun & _ & Hnot).
  exists obj, w'. split; [exact Hrun|].
  assert (Hd : FuseSurfacePartsByCref_is_done obj = false)
    by (now injection Hrun as <- _).
  split; [exact Hd|]. now destruct (Hnot Hd).
Defined.

Lemma status_is_last_cut_witness :
  exists obj w',
    CutParts Z zpart_cut id [2; 1; 1; 3]%positive 5%positive zworld =
    (Ok obj, w') /\
    was_cut obj 1 = Ok true /\
    map (shape_of w') [1; 2; 3]%positive = [101; 2; 103]%positive.
Proof.
  destruct (status_is_last_cut Z zpart_cut id [2; 1]%positive 1%positive
              [3%positive] 5%positive zworld)
    as (obj & w' & Hrun & Hs & Hsh).
  - rewrite elem_of_cons, elem_of_nil. intros [H|[]]. discriminate.
  - exists obj, w'. split; [exact Hrun|]. split; [exact Hs|].
    now rewrite Hsh.
Defined.

Lemma default_max_tolerance_witness :
  exists m,
    sew_tool Z Z.ltb ztolerance zmean zsew [2; 7; 3]%positive None None zworld =
    (Ok (zsew 0 m [2; 7; 3]%positive),
     add_history Z zworld [EvSew [2; 7; 3]%positive]) /\
    (exists p, In p [2; 7; 3]%positive /\ m = ztolerance (shape_of zworld p) 1) /\
    (forall p, In p [2; 7; 3]%positive ->
       (m <? ztolerance (shape_of zworld p) 1) = false).
Proof.
  apply (default_max_tolerance Z Z.ltb ztolerance zmean zsew Zltb_asym
           Zltb_negtrans [2; 7; 3]%positive None zworld).
  discriminate.
Defined.

Lemma sew_rewrites_modified_parts_witness :
  exists w',
    SewSurfaceParts Z Z.ltb ztolerance zmean zsew [2; 1]%positive None None
      zworld = (Ok tt, w') /\
    history w' = [EvSew [2; 1]%positive; EvSetShape 1 51] /\
    (forall p, p ∈ [2; 1]%positive ->
       shape_of w' p = sewn Z (zsew 0 2 [2; 1]%positive) zworld p) /\
    (forall p, p ∉ [2; 1]%positive -> shape_of w' p = shape_of zworld p).
Proof.
  apply (sew_rewrites_modified_parts Z Z.ltb ztolerance zmean zsew
           [2; 1]%positive None None zworld (zsew 0 2 [2; 1]%positive)
           (add_history Z zworld [EvSew [2; 1]%positive])).
  - repeat constructor; rewrite ?elem_of_cons, ?elem_of_nil; intuition congruence.
  - reflexivity.
Defined.

(** A Boolean tool that reports shape [3] as deleted and the other
    shapes as unmodified. *)
Definition zdeleting_bop : BopTool :=
  {| is_done := true; shape := 99;
     modification := fun s => if Pos.eqb s 3 then [] else [s] |}.

Example split_stops_at_deleted_shape :
  let r := SplitParts Z (fun _ _ _ => zdeleting_bop) spec_new_shape
             [1; 3; 4]%positive None None zworld in
  fst r = Raise (RuntimeError "Shape was deleted.") /\
  history (snd r) = [EvBuild [1; 3; 4]%positive []; EvSetShape 1 1] /\
  map (shape_of (snd r)) [1; 3; 4]%positive = [1; 3; 4]%positive.
Proof. repeat split. Qed.

Lemma resolver_error_stops_the_loop_witness :
  exists w',
    FuseSurfaceParts Z (fun _ _ _ => zdeleting_bop) spec_new_shape
      [1; 3]%positive [4%positive] None zworld =
    (Raise (RuntimeError "Shape was deleted."), w') /\
    rebuilt Z spec_new_shape
      (RebuildShapesByTool [1; 3; 4]%positive zdeleting_bop) [1%positive]
      [EvBuild [1; 3]%positive [4%positive]] zworld w'.
Proof.
  destruct (resolver_error_stops_the_loop Z (fun _ _ _ => zdeleting_bop)
              (fun _ _ _ => zdeleting_bop) spec_new_shape) as [Hfuse _].
  apply (Hfuse [1; 3]%positive [4%positive] [1%positive] 3%positive
           [4%positive] None zworld).
  - reflexivity.
  - repeat constructor. rewrite elem_of_nil. tauto.
  - rewrite elem_of_cons, elem_of_nil. intros [H|[]]. discriminate.
  - intros p Hp. apply list_elem_of_singleton in Hp as ->.
    eexists. reflexivity.
  - reflexivity.
Defined.

Example three_assemblies :
  let r := FuseAssemblies Z zcompound zget_parts zfuse_shapes spec_new_shape
             [1; 2; 3]%positive None true zworld in
  history (snd r) =
    [EvCompound [1; 11]%positive; EvCompound [2; 12]%positive;
     EvCompound [3; 13]%positive;
     EvBuild [100%positive] [100; 100]%positive;
     EvSetShape 1 2; EvSetShape 11 11; EvSetShape 2 2; EvSetShape 12 12;
     EvSetShape 3 3; EvSetShape 13 13].
Proof. reflexivity. Qed.

End Join.
